(** * liblight/lights.c: the MSM8610 lights HAL module

    A shallow embedding of [liblight/lights.c] and the properties of its
    three setters, of the LED arbitration routine and of [open_lights].

    The C functions are written once, as programs over a small command
    monad whose commands are the effects the file has: the calls to
    open(2), write(2) and close(2), reads of [errno], the Android log, the
    loads and stores of the file's static variables, and the operations on
    [g_lock].  The programs get two semantics: [exec], the run of one
    thread, and [run_schedule], the interleaving of several threads that
    share the statics and contend for [g_lock]. *)

From Stdlib Require Import ZArith Ascii String List Bool Lia.
From Stdlib Require Import DecimalString HexadecimalString.
Import ListNotations.

Local Open Scope string_scope.
Local Open Scope Z_scope.

(** ** Data model *)

(** Modelled from the spec: [struct light_state_t] is declared in the
    platform header [hardware/lights.h], which is not among the sources.
    [color] is a 32-bit ARGB value, the other fields are C [int]s. *)
Record light_state_t : Type := mk_light_state {
  color : Z;
  flashMode : Z;
  flashOnMS : Z;
  flashOffMS : Z
}.

(** Modelled from the spec: the flash modes of [hardware/lights.h]. *)
Definition LIGHT_FLASH_NONE : Z := 0.
Definition LIGHT_FLASH_TIMED : Z := 1.

(** Modelled from the spec: the three logical light names of
    [hardware/lights.h]. *)
Definition LIGHT_ID_BACKLIGHT : string := "backlight".
Definition LIGHT_ID_BATTERY : string := "battery".
Definition LIGHT_ID_NOTIFICATIONS : string := "notifications".

(** Constants of the C library and of [hardware/hardware.h]. *)
Definition EINVAL : Z := 22.
Definition O_RDWR : Z := 2.
Definition HARDWARE_DEVICE_TAG : Z := 0x48574454.

Definition LCD_FILE : string := "/sys/class/leds/lcd-backlight/brightness".
Definition RGB_CONTROL_FILE : string := "/sys/class/leds/rgb/control".
Definition LOG_TAG : string := "lights".

(** Function pointers are the names of the functions they point to. *)
Inductive set_light_fn : Type :=
| fn_set_light_backlight
| fn_set_light_battery
| fn_set_light_notifications.

Inductive close_fn : Type :=
| fn_close_lights.

(** [struct hw_device_t] and [struct light_device_t]; a null function
    pointer is [None], a [struct hw_module_t*] is an address. *)
Record hw_device_t : Type := mk_hw_device {
  tag : Z;
  version : Z;
  module : Z;
  close : option close_fn
}.

Record light_device_t : Type := mk_light_device {
  common : hw_device_t;
  set_light : option set_light_fn
}.

(** What [memset(dev, 0, sizeof( *dev))] leaves. *)
Definition zero_device : light_device_t :=
  mk_light_device (mk_hw_device 0 0 0 None) None.

(** A heap cell holds a device: fresh from [malloc], live, or freed. *)
Inductive cell : Type :=
| Uninit
| Live (d : light_device_t)
| Freed.

(** ** The environment: system calls and the log *)

Inductive syscall : Type :=
| Open (path : string) (flags : Z)
| Write (fd : Z) (buf : string) (count : Z)
| Close (fd : Z).

(** A system call together with the value it returned. *)
Definition event : Type := (syscall * Z)%type.

Inductive log_prio : Type := ANDROID_LOG_DEBUG | ANDROID_LOG_ERROR.

Inductive log_arg : Type :=
| ArgInt (z : Z)
| ArgStr (s : string).

Record logline : Type := mk_logline {
  prio : log_prio;
  ltag : string;
  fmt : string;
  args : list log_arg
}.

(** ** State *)

(** The statics of the file, the heap, and the history of system calls.
    [write_int_already_warned] and [write_str_already_warned] are the
    function-local statics [already_warned] of the two writers. *)
Record globals : Type := mk_globals {
  g_init : bool;
  g_notification : light_state_t;
  g_battery : light_state_t;
  write_int_already_warned : Z;
  write_str_already_warned : Z;
  heap : list cell;
  syscalls : list event
}.

(** What each thread has of its own. *)
Record tls : Type := mk_tls {
  errno : Z;
  logcat : list logline
}.

Definition set_g_init (b : bool) (g : globals) : globals :=
  mk_globals b (g_notification g) (g_battery g)
    (write_int_already_warned g) (write_str_already_warned g)
    (heap g) (syscalls g).

Definition set_g_notification (s : light_state_t) (g : globals) : globals :=
  mk_globals (g_init g) s (g_battery g)
    (write_int_already_warned g) (write_str_already_warned g)
    (heap g) (syscalls g).

Definition set_g_battery (s : light_state_t) (g : globals) : globals :=
  mk_globals (g_init g) (g_notification g) s
    (write_int_already_warned g) (write_str_already_warned g)
    (heap g) (syscalls g).

Definition set_write_int_already_warned (v : Z) (g : globals) : globals :=
  mk_globals (g_init g) (g_notification g) (g_battery g)
    v (write_str_already_warned g) (heap g) (syscalls g).

Definition set_write_str_already_warned (v : Z) (g : globals) : globals :=
  mk_globals (g_init g) (g_notification g) (g_battery g)
    (write_int_already_warned g) v (heap g) (syscalls g).

Definition set_heap (h : list cell) (g : globals) : globals :=
  mk_globals (g_init g) (g_notification g) (g_battery g)
    (write_int_already_warned g) (write_str_already_warned g)
    h (syscalls g).

Definition record_event (e : event) (g : globals) : globals :=
  mk_globals (g_init g) (g_notification g) (g_battery g)
    (write_int_already_warned g) (write_str_already_warned g)
    (heap g) (syscalls g ++ [e])%list.

(** A failing call assigns [errno]; [None] leaves it as it was. *)
Definition assign_errno (e : option Z) (t : tls) : tls :=
  match e with
  | Some v => mk_tls v (logcat t)
  | None => t
  end.

Definition add_log (l : logline) (t : tls) : tls :=
  mk_tls (errno t) (logcat t ++ [l])%list.

(** The kernel answers a system call, given the calls made so far, with
    the value returned and the value assigned to [errno], if any. *)
Definition kernel_t : Type := list event -> syscall -> Z * option Z.

(** ** Programs *)

Inductive prog (A : Type) : Type :=
| Ret (a : A)
| MutexInit (k : prog A)
| MutexLock (k : prog A)
| MutexUnlock (k : prog A)
| Sys (c : syscall) (k : Z -> prog A)
| Errno (k : Z -> prog A)
| Log (l : logline) (k : prog A)
| Glob (B : Type) (f : globals -> B * globals) (k : B -> prog A).

Arguments Ret {A} a.
Arguments MutexInit {A} k.
Arguments MutexLock {A} k.
Arguments MutexUnlock {A} k.
Arguments Sys {A} c k.
Arguments Errno {A} k.
Arguments Log {A} l k.
Arguments Glob {A B} f k.

Fixpoint bind {A B : Type} (p : prog A) (h : A -> prog B) : prog B :=
  match p with
  | Ret a => h a
  | MutexInit k => MutexInit (bind k h)
  | MutexLock k => MutexLock (bind k h)
  | MutexUnlock k => MutexUnlock (bind k h)
  | Sys c k => Sys c (fun r => bind (k r) h)
  | Errno k => Errno (fun e => bind (k e) h)
  | Log l k => Log l (bind k h)
  | Glob f k => Glob f (fun b => bind (k b) h)
  end.

Declare Scope prog_scope.
Delimit Scope prog_scope with prog.
Notation "x <- p ;; q" := (bind p (fun x => q))
  (at level 61, p at next level, right associativity) : prog_scope.
Notation "p ;; q" := (bind p (fun _ => q))
  (at level 61, right associativity) : prog_scope.
Local Open Scope prog_scope.

(** The run of one thread.  With a single thread [g_lock] is never
    contended, so its operations return at once; that each setter locks
    and unlocks in the right order is [guarded], below, and the runs of
    several threads are [run_schedule].  The log leaves [errno] as it
    is. *)
Fixpoint exec {A : Type} (kernel : kernel_t) (p : prog A) (t : tls)
    (g : globals) : A * tls * globals :=
  match p with
  | Ret a => (a, t, g)
  | MutexInit k => exec kernel k t g
  | MutexLock k => exec kernel k t g
  | MutexUnlock k => exec kernel k t g
  | Sys c k =>
      let r := kernel (syscalls g) c in
      exec kernel (k (fst r)) (assign_errno (snd r) t)
        (record_event (c, fst r) g)
  | Errno k => exec kernel (k (errno t)) t g
  | Log l k => exec kernel k (add_log l t) g
  | Glob f k => let r := f g in exec kernel (k (fst r)) t (snd r)
  end.

(** *** The primitives the file calls *)

Definition pthread_mutex_init : prog unit := MutexInit (Ret tt).
Definition pthread_mutex_lock : prog unit := MutexLock (Ret tt).
Definition pthread_mutex_unlock : prog unit := MutexUnlock (Ret tt).

Definition sys_open (path : string) (flags : Z) : prog Z :=
  Sys (Open path flags) Ret.
Definition sys_write (fd : Z) (buf : string) (count : Z) : prog Z :=
  Sys (Write fd buf count) Ret.
Definition sys_close (fd : Z) : prog Z :=
  Sys (Close fd) Ret.

Definition get_errno : prog Z := Errno Ret.

Definition ALOGE (f : string) (a : list log_arg) : prog unit :=
  Log (mk_logline ANDROID_LOG_ERROR LOG_TAG f a) (Ret tt).
Definition ALOGD (f : string) (a : list log_arg) : prog unit :=
  Log (mk_logline ANDROID_LOG_DEBUG LOG_TAG f a) (Ret tt).

Definition load {B : Type} (field : globals -> B) : prog B :=
  Glob (fun g => (field g, g)) Ret.
Definition store (upd : globals -> globals) : prog unit :=
  Glob (fun g => (tt, upd g)) Ret.

(** [pthread_once(&g_init, f)]. *)
Definition pthread_once (f : prog unit) : prog unit :=
  done <- Glob (fun g => (g_init g, set_g_init true g)) Ret ;;
  if done then Ret tt else f.

(** [malloc]: a fresh cell; the allocator is taken never to fail. *)
Definition malloc : prog nat :=
  Glob (fun g => (length (heap g), set_heap (heap g ++ [Uninit])%list g)) Ret.

Fixpoint update_cell (h : list cell) (p : nat) (c : cell) : list cell :=
  match h, p with
  | [], _ => []
  | _ :: h', O => c :: h'
  | x :: h', S p' => x :: update_cell h' p' c
  end.

Definition memset_zero (p : nat) : prog unit :=
  store (fun g => set_heap (update_cell (heap g) p (Live zero_device)) g).

(** A store to a field of [*p]. *)
Definition store_dev (p : nat) (upd : light_device_t -> light_device_t)
    : prog unit :=
  store (fun g =>
    match nth_error (heap g) p with
    | Some (Live d) => set_heap (update_cell (heap g) p (Live (upd d))) g
    | _ => g
    end).

Definition free (p : nat) : prog unit :=
  store (fun g => set_heap (update_cell (heap g) p Freed) g).

(** *** printf conversions *)

(** ["%d"] of an [int]. *)
Definition fmt_d (z : Z) : string :=
  DecimalString.NilZero.string_of_int (Z.to_int z).

Fixpoint spaces (n : nat) : string :=
  match n with
  | O => EmptyString
  | S n' => String " "%char (spaces n')
  end.

(** ["%6x"] of an [unsigned int]: lower-case digits, padded on the left
    with spaces to six columns. *)
Definition fmt_6x (z : Z) : string :=
  let digits := HexadecimalString.NilZero.string_of_uint
                  (N.to_hex_uint (Z.to_N z)) in
  spaces (6 - String.length digits) ++ digits.

Definition strcmp (a b : string) : Z :=
  match String.compare a b with
  | Eq => 0
  | Lt => -1
  | Gt => 1
  end.

(** ** The functions of lights.c *)

(** The newline of ["%d\n"] and ["%s\n"]. *)
Definition nl : string := String "010"%char EmptyString.

Definition init_globals : prog unit :=
  pthread_mutex_init.

Definition write_int (path : string) (value : Z) : prog Z :=
  fd <- sys_open path O_RDWR ;;
  if 0 <=? fd then
    let buffer := fmt_d value ++ nl in
    let bytes := Z.of_nat (String.length buffer) in
    amt <- sys_write fd buffer bytes ;;
    sys_close fd ;;
    if amt =? -1 then e <- get_errno ;; Ret (- e) else Ret 0
  else
    warned <- load write_int_already_warned ;;
    (if warned =? 0 then
       ALOGE "write_int failed to open %s\n" [ArgStr path] ;;
       store (set_write_int_already_warned 1)
     else Ret tt) ;;
    e <- get_errno ;; Ret (- e).

Definition write_str (path : string) (value : string) : prog Z :=
  fd <- sys_open path O_RDWR ;;
  if 0 <=? fd then
    let buffer := value ++ nl in
    let bytes := Z.of_nat (String.length buffer) in
    amt <- sys_write fd buffer bytes ;;
    sys_close fd ;;
    if amt =? -1 then e <- get_errno ;; Ret (- e) else Ret 0
  else
    warned <- load write_str_already_warned ;;
    (if warned =? 0 then
       ALOGE "write_str failed to open %s\n" [ArgStr path] ;;
       store (set_write_str_already_warned 1)
     else Ret tt) ;;
    e <- get_errno ;; Ret (- e).

Definition is_lit (state : light_state_t) : Z :=
  Z.land (color state) 0x00ffffff.

Definition rgb_to_brightness (state : light_state_t) : Z :=
  let c := Z.land (color state) 0x00ffffff in
  Z.shiftr (77 * Z.land (Z.shiftr c 16) 0x00ff
            + 150 * Z.land (Z.shiftr c 8) 0x00ff
            + 29 * Z.land c 0x00ff) 8.

Definition set_light_backlight (dev : option nat) (state : light_state_t)
    : prog Z :=
  let brightness := rgb_to_brightness state in
  pthread_mutex_lock ;;
  err <- write_int LCD_FILE brightness ;;
  pthread_mutex_unlock ;;
  Ret err.

(** The locals [onMS], [offMS] and [ramp] after the [switch]. *)
Definition flash_timing (state : light_state_t) : Z * Z * Z :=
  if flashMode state =? LIGHT_FLASH_TIMED
  then (flashOnMS state, flashOffMS state, 300)
  else (0, 0, 0).

(** The buffer [blink_pattern] after the [sprintf]. *)
Definition blink_pattern (state : light_state_t) : string :=
  let '(onMS, offMS, ramp) := flash_timing state in
  let colorRGB := if Z.land 0xFFFFFF (color state) =? 0 then 0 else 0xFFFFFF in
  fmt_6x colorRGB ++ " " ++ fmt_d onMS ++ " " ++ fmt_d offMS
    ++ " " ++ fmt_d ramp ++ " " ++ fmt_d ramp.

Definition set_speaker_light_locked (dev : option nat)
    (state : light_state_t) : prog Z :=
  let '(onMS, offMS, ramp) := flash_timing state in
  ALOGD "set_speaker_light_locked mode %d, colorRGB=%08X, onMS=%d, offMS=%d\n"
    [ArgInt (flashMode state); ArgInt (color state);
     ArgInt onMS; ArgInt offMS] ;;
  write_str RGB_CONTROL_FILE (blink_pattern state) ;;
  Ret 0.

(** [&g_notification] and [&g_battery] are read under the lock; the
    snapshot is loaded once and handed on. *)
Definition handle_speaker_battery_locked (dev : option nat) : prog unit :=
  n <- load g_notification ;;
  if negb (is_lit n =? 0) then
    set_speaker_light_locked dev n ;; Ret tt
  else
    b <- load g_battery ;;
    if negb (is_lit b =? 0) then
      write_str RGB_CONTROL_FILE "FFFFFF 1 0 0 0" ;; Ret tt
    else
      write_str RGB_CONTROL_FILE "000000 0 0 0 0" ;; Ret tt.

Definition set_light_notifications (dev : option nat)
    (state : light_state_t) : prog Z :=
  pthread_mutex_lock ;;
  store (set_g_notification state) ;;
  handle_speaker_battery_locked dev ;;
  pthread_mutex_unlock ;;
  Ret 0.

Definition set_light_battery (dev : option nat) (state : light_state_t)
    : prog Z :=
  ALOGD "Setting battery colorRGB=%08X" [ArgInt (color state)] ;;
  pthread_mutex_lock ;;
  store (set_g_battery state) ;;
  handle_speaker_battery_locked dev ;;
  pthread_mutex_unlock ;;
  Ret 0.

Definition close_lights (dev : option nat) : prog Z :=
  match dev with
  | Some p => free p
  | None => Ret tt
  end ;;
  Ret 0.

(** The call through a [set_light] pointer. *)
Definition call_set_light (f : set_light_fn)
    : option nat -> light_state_t -> prog Z :=
  match f with
  | fn_set_light_backlight => set_light_backlight
  | fn_set_light_battery => set_light_battery
  | fn_set_light_notifications => set_light_notifications
  end.

(** [open_lights(module, name, device)]; the result is the value returned
    and the contents of [*device] on return, [device] being its contents
    on entry. *)
Definition open_lights (module_ : Z) (name : string) (device : option nat)
    : prog (Z * option nat) :=
  let set_light_ :=
    if strcmp LIGHT_ID_BACKLIGHT name =? 0 then Some fn_set_light_backlight
    else if strcmp LIGHT_ID_BATTERY name =? 0 then Some fn_set_light_battery
    else if strcmp LIGHT_ID_NOTIFICATIONS name =? 0
         then Some fn_set_light_notifications
    else None in
  match set_light_ with
  | None => Ret (- EINVAL, device)
  | Some f =>
      pthread_once init_globals ;;
      dev <- malloc ;;
      memset_zero dev ;;
      store_dev dev (fun d =>
        mk_light_device
          (mk_hw_device HARDWARE_DEVICE_TAG (version (common d))
             (module (common d)) (close (common d)))
          (set_light d)) ;;
      store_dev dev (fun d =>
        mk_light_device
          (mk_hw_device (tag (common d)) 0
             (module (common d)) (close (common d)))
          (set_light d)) ;;
      store_dev dev (fun d =>
        mk_light_device
          (mk_hw_device (tag (common d)) (version (common d))
             module_ (close (common d)))
          (set_light d)) ;;
      store_dev dev (fun d =>
        mk_light_device
          (mk_hw_device (tag (common d)) (version (common d))
             (module (common d)) (Some fn_close_lights))
          (set_light d)) ;;
      store_dev dev (fun d => mk_light_device (common d) (Some f)) ;;
      Ret (0, Some dev)
  end.

(** ** Observing a run *)

(** The buffers handed to write(2) on descriptors that open(2) returned
    for [path], in the order of the calls; [fds] are the descriptors open
    so far. *)
Fixpoint write_calls_from (fds : list (Z * string)) (path : string)
    (evs : list event) : list string :=
  match evs with
  | [] => []
  | (Open p _, fd) :: rest =>
      write_calls_from (if 0 <=? fd then (fd, p) :: fds else fds) path rest
  | (Write fd buf count, _) :: rest =>
      match find (fun e => fst e =? fd) fds with
      | Some (_, p) =>
          if String.eqb p path
          then substring 0 (Z.to_nat count) buf
                 :: write_calls_from fds path rest
          else write_calls_from fds path rest
      | None => write_calls_from fds path rest
      end
  | (Close fd, _) :: rest =>
      write_calls_from (filter (fun e => negb (fst e =? fd)) fds) path rest
  end.

Definition write_calls (path : string) (evs : list event) : list string :=
  write_calls_from [] path evs.

(** The system calls a run adds to the history. *)
Definition events_of {A : Type} (kernel : kernel_t) (p : prog A) (t : tls)
    (g : globals) : list event :=
  skipn (length (syscalls g)) (syscalls (snd (exec kernel p t g))).

(** The value a run returns. *)
Definition result_of {A : Type} (kernel : kernel_t) (p : prog A) (t : tls)
    (g : globals) : A :=
  fst (fst (exec kernel p t g)).

(** The calls of [write_int] and [write_str] on [path] with the buffer
    [buf], after the history [h]. *)
Definition writer_events (kernel : kernel_t) (h : list event)
    (path buf : string) : list event :=
  let e1 := (Open path O_RDWR, fst (kernel h (Open path O_RDWR))) in
  if 0 <=? snd e1 then
    let w := Write (snd e1) buf (Z.of_nat (String.length buf)) in
    let e2 := (w, fst (kernel (h ++ [e1])%list w)) in
    let e3 := (Close (snd e1),
               fst (kernel (h ++ [e1; e2])%list (Close (snd e1)))) in
    [e1; e2; e3]
  else [e1].

(** A kernel on which every call succeeds: descriptor 3, full writes. *)
Definition kernel_ok : kernel_t :=
  fun _ c =>
    match c with
    | Open _ _ => (3, None)
    | Write _ _ count => (count, None)
    | Close _ => (0, None)
    end.

(** A kernel on which open(2) fails with [ENOENT]. *)
Definition ENOENT : Z := 2.
Definition kernel_noent : kernel_t :=
  fun _ c =>
    match c with
    | Open _ _ => (-1, Some ENOENT)
    | Write _ _ _ => (-1, Some 9)
    | Close _ => (-1, Some 9)
    end.

Definition dark : light_state_t := mk_light_state 0 0 0 0.

Definition globals0 : globals := mk_globals false dark dark 0 0 [] [].
Definition tls0 : tls := mk_tls 0 [].

(** The 8-bit channels of an ARGB colour. *)
Definition red (c : Z) : Z := Z.land (Z.shiftr c 16) 0xff.
Definition green (c : Z) : Z := Z.land (Z.shiftr c 8) 0xff.
Definition blue (c : Z) : Z := Z.land c 0xff.

(** The luminance of the specification:
    [brightness = (77*R + 150*G + 29*B) >> 8]. *)
Definition luma (c : Z) : Z :=
  Z.shiftr (77 * red c + 150 * green c + 29 * blue c) 8.

(** The string the arbitration routine hands to [write_str], given the two
    snapshots: its three branches, read off
    [handle_speaker_battery_locked]. *)
Definition led_pattern (n b : light_state_t) : string :=
  if negb (is_lit n =? 0) then blink_pattern n
  else if negb (is_lit b =? 0) then "FFFFFF 1 0 0 0"
  else "000000 0 0 0 0".

(** The debug line of [set_speaker_light_locked]. *)
Definition speaker_logline (s : light_state_t) : logline :=
  mk_logline ANDROID_LOG_DEBUG LOG_TAG
    "set_speaker_light_locked mode %d, colorRGB=%08X, onMS=%d, offMS=%d\n"
    [ArgInt (flashMode s); ArgInt (color s);
     ArgInt (fst (fst (flash_timing s))); ArgInt (snd (fst (flash_timing s)))].

(** The debug line of [set_light_battery]. *)
Definition battery_logline (s : light_state_t) : logline :=
  mk_logline ANDROID_LOG_DEBUG LOG_TAG "Setting battery colorRGB=%08X"
    [ArgInt (color s)].

(** Two light states that differ at most in the alpha channel. *)
Definition alpha_eq (s1 s2 : light_state_t) : Prop :=
  Z.land (color s1) 0xffffff = Z.land (color s2) 0xffffff
  /\ flashMode s1 = flashMode s2
  /\ flashOnMS s1 = flashOnMS s2
  /\ flashOffMS s1 = flashOffMS s2.

(** Two states of the statics that differ at most in the alpha channels of
    the two snapshots. *)
Definition globals_alpha_eq (g1 g2 : globals) : Prop :=
  g_init g1 = g_init g2
  /\ alpha_eq (g_notification g1) (g_notification g2)
  /\ alpha_eq (g_battery g1) (g_battery g2)
  /\ write_int_already_warned g1 = write_int_already_warned g2
  /\ write_str_already_warned g1 = write_str_already_warned g2
  /\ heap g1 = heap g2
  /\ syscalls g1 = syscalls g2.

(** Two runs that return the same value and leave the same [errno] and
    statics that differ at most in the alpha channels. *)
Definition run_alpha_eq {A : Type} (r1 r2 : A * tls * globals) : Prop :=
  fst (fst r1) = fst (fst r2)
  /\ errno (snd (fst r1)) = errno (snd (fst r2))
  /\ globals_alpha_eq (snd r1) (snd r2).

(** Whether open(2) of [path] succeeds after the history [h]. *)
Definition opens (kernel : kernel_t) (h : list event) (path : string) : bool :=
  0 <=? fst (kernel h (Open path O_RDWR)).

(** Inputs of the examples. *)
Definition lit_timed : light_state_t := mk_light_state 0xff00ff00 1 100 200.
Definition lit_steady : light_state_t := mk_light_state 0x00ffffff 0 5 7.
Definition alpha_only : light_state_t := mk_light_state 0xff000000 0 0 0.
Definition pure_red : light_state_t := mk_light_state 0x00FF0000 0 0 0.

Definition globals_both_lit : globals :=
  mk_globals false lit_timed lit_steady 0 0 [] [].
Definition globals_battery_lit : globals :=
  mk_globals false alpha_only lit_steady 0 0 [] [].
Definition globals_battery_alpha : globals :=
  mk_globals false dark alpha_only 0 0 [] [].

(** ** Several threads *)

(** A thread: what it has of its own and what it has left to run. *)
Record thread : Type := mk_thread {
  th_tls : tls;
  th_prog : prog Z
}.

(** The threads of the host, the statics they share and the owner of
    [g_lock], if it is held. *)
Record config : Type := mk_config {
  g_lock : option nat;
  threads : list thread;
  shared : globals
}.

Fixpoint set_thread (ths : list thread) (i : nat) (th : thread)
    : list thread :=
  match ths, i with
  | [], _ => []
  | _ :: ths', O => th :: ths'
  | x :: ths', S i' => x :: set_thread ths' i' th
  end.

(** One command of thread [i].  A thread that has returned makes no step;
    [pthread_mutex_lock] makes none while the mutex is held, and
    [pthread_mutex_unlock] none for a thread that does not own it;
    [pthread_mutex_init] leaves the mutex unlocked.  A system call is
    answered by the kernel from the history of all threads and assigns the
    [errno] of the calling thread. *)
Definition step_thread (kernel : kernel_t) (i : nat) (c : config)
    : option config :=
  match nth_error (threads c) i with
  | None => None
  | Some th =>
      let continue lock t k g :=
        Some (mk_config lock (set_thread (threads c) i (mk_thread t k)) g) in
      match th_prog th with
      | Ret _ => None
      | MutexInit k => continue None (th_tls th) k (shared c)
      | MutexLock k =>
          match g_lock c with
          | None => continue (Some i) (th_tls th) k (shared c)
          | Some _ => None
          end
      | MutexUnlock k =>
          match g_lock c with
          | Some j =>
              if Nat.eqb j i then continue None (th_tls th) k (shared c)
              else None
          | None => None
          end
      | Sys call k =>
          let r := kernel (syscalls (shared c)) call in
          continue (g_lock c) (assign_errno (snd r) (th_tls th)) (k (fst r))
            (record_event (call, fst r) (shared c))
      | Errno k =>
          continue (g_lock c) (th_tls th) (k (errno (th_tls th))) (shared c)
      | Log l k => continue (g_lock c) (add_log l (th_tls th)) k (shared c)
      | Glob f k =>
          let r := f (shared c) in
          continue (g_lock c) (th_tls th) (k (fst r)) (snd r)
      end
  end.

(** The run of a schedule: the threads that make the steps, in order. *)
Fixpoint run_schedule (kernel : kernel_t) (sched : list nat) (c : config)
    : option config :=
  match sched with
  | [] => Some c
  | i :: rest =>
      match step_thread kernel i c with
      | Some c1 => run_schedule kernel rest c1
      | None => None
      end
  end.

Definition finished (th : thread) : bool :=
  match th_prog th with
  | Ret _ => true
  | _ => false
  end.

Definition all_returned (c : config) : bool :=
  forallb finished (threads c).

(** Thread [i] runs what it has left to its end, alone. *)
Definition run_to_end (kernel : kernel_t) (i : nat) (ths : list thread)
    (g : globals) : list thread * globals :=
  match nth_error ths i with
  | Some th =>
      let r := exec kernel (th_prog th) (th_tls th) g in
      (set_thread ths i (mk_thread (snd (fst r)) (Ret (fst (fst r)))), snd r)
  | None => (ths, g)
  end.

(** The threads of [order] run one after the other, each to its end. *)
Fixpoint serial (kernel : kernel_t) (order : list nat) (ths : list thread)
    (g : globals) : list thread * globals :=
  match order with
  | [] => (ths, g)
  | i :: rest =>
      serial kernel rest (fst (run_to_end kernel i ths g))
        (snd (run_to_end kernel i ths g))
  end.

(** *** The lock discipline *)

(** The code of a critical section: it leaves [g_lock] alone, and its
    loads and stores leave the history of system calls alone. *)
Fixpoint section_body {A : Type} (p : prog A) : Prop :=
  match p with
  | Ret _ => True
  | MutexInit _ => False
  | MutexLock _ => False
  | MutexUnlock _ => False
  | Sys _ k => forall r, section_body (k r)
  | Errno k => forall e, section_body (k e)
  | Log _ k => section_body k
  | Glob f k =>
      (forall g, syscalls (snd (f g)) = syscalls g)
      /\ forall b, section_body (k b)
  end.

(** What a thread that holds [g_lock] has left: the rest of the critical
    section, then the unlock, then the return. *)
Fixpoint inside (p : prog Z) : Prop :=
  match p with
  | Ret _ => False
  | MutexInit _ => False
  | MutexLock _ => False
  | MutexUnlock k => match k with Ret _ => True | _ => False end
  | Sys _ k => forall r, inside (k r)
  | Errno k => forall e, inside (k e)
  | Log _ k => inside k
  | Glob f k =>
      (forall g, syscalls (snd (f g)) = syscalls g)
      /\ forall b, inside (k b)
  end.

(** What a thread that has not yet taken [g_lock] has left: commands on
    its own state, then the lock and what [inside] describes. *)
Fixpoint guarded (p : prog Z) : Prop :=
  match p with
  | MutexLock k => inside k
  | Errno k => forall e, guarded (k e)
  | Log _ k => guarded k
  | _ => False
  end.

(** Every thread is where the lock says: the owner is inside, the others
    have not taken the lock yet or have returned. *)
Definition well_locked (c : config) : Prop :=
  (forall j, g_lock c = Some j -> nth_error (threads c) j <> None)
  /\ forall i th,
       nth_error (threads c) i = Some th ->
       if match g_lock c with Some j => Nat.eqb j i | None => false end
       then inside (th_prog th)
       else guarded (th_prog th) \/ finished th = true.

(** Thread [i] exists and has not returned. *)
Definition pending (ths : list thread) (i : nat) : Prop :=
  exists th, nth_error ths i = Some th /\ finished th = false.

(** A list of the pending threads, each once, with the owner of the lock,
    if any, first: an order in which they can run one after the other. *)
Definition serial_order (c : config) (order : list nat) : Prop :=
  NoDup order
  /\ (forall i, In i order <-> pending (threads c) i)
  /\ (forall j, g_lock c = Some j -> exists rest, order = j :: rest).

(** The history [h'] continues the history [h]. *)
Definition extends (h h' : list event) : Prop :=
  exists evs, h' = (h ++ evs)%list.

(** The pending threads in the order of their numbers, the owner of the
    lock first. *)
Definition completion_order (c : config) : list nat :=
  let others j :=
    filter (fun i =>
              match nth_error (threads c) i with
              | Some th => negb (finished th) && negb (Nat.eqb i j)
              | None => false
              end)
      (seq 0 (length (threads c))) in
  match g_lock c with
  | Some j => j :: others j
  | None => others (length (threads c))
  end.

(** Two threads of the host: one in set notifications, the other in set
    battery, about to run, and the lock free. *)
Definition notifications_and_battery (devN devB : option nat)
    (sN sB : light_state_t) (tN tB : tls) (g : globals) : config :=
  mk_config None
    [mk_thread tN (set_light_notifications devN sN);
     mk_thread tB (set_light_battery devB sB)]
    g.

(** A schedule of the examples: the battery thread logs, the notification
    thread runs from lock to unlock, the battery thread runs to its end. *)
Definition schedule_interleaved : list nat :=
  [1; 0; 0; 0; 0; 0; 0; 0; 0; 1; 1; 1; 1; 1; 1; 1; 1]%nat.

(** ** Further observations *)

(** The descriptors left open by the calls [evs], [fds] being those open
    before; close(2) releases its descriptor whatever it returns. *)
Fixpoint open_fds_from (fds : list Z) (evs : list event) : list Z :=
  match evs with
  | [] => fds
  | (Open _ _, fd) :: rest =>
      open_fds_from (if 0 <=? fd then fd :: fds else fds) rest
  | (Write _ _ _, _) :: rest => open_fds_from fds rest
  | (Close fd, _) :: rest =>
      open_fds_from (filter (fun x => negb (x =? fd)) fds) rest
  end.

Definition open_fds (evs : list event) : list Z :=
  open_fds_from [] evs.

(** The paths handed to open(2), in the order of the calls. *)
Definition opened_paths (evs : list event) : list string :=
  flat_map (fun e => match fst e with Open p _ => [p] | _ => [] end) evs.

(** The number of error lines of [l] with the format [f]. *)
Definition error_lines (f : string) (l : list logline) : nat :=
  length
    (filter (fun x =>
               match prio x with
               | ANDROID_LOG_ERROR => String.eqb (fmt x) f
               | ANDROID_LOG_DEBUG => false
               end) l).

(** A colour packed from its four channels. *)
Definition argb (a r g b : Z) : Z :=
  a * 2 ^ 24 + r * 2 ^ 16 + g * 2 ^ 8 + b.

(** The logical name that selects a setter. *)
Definition name_of (f : set_light_fn) : string :=
  match f with
  | fn_set_light_backlight => LIGHT_ID_BACKLIGHT
  | fn_set_light_battery => LIGHT_ID_BATTERY
  | fn_set_light_notifications => LIGHT_ID_NOTIFICATIONS
  end.

(** A call of a setter through a handle: the setter, the handle and the
    state given. *)
Record setter_call : Type := mk_call {
  call_fn : set_light_fn;
  call_dev : option nat;
  call_state : light_state_t
}.

Definition call_prog (c : setter_call) : prog Z :=
  call_set_light (call_fn c) (call_dev c) (call_state c).

(** Calls made one after the other on one thread. *)
Fixpoint run_calls (kernel : kernel_t) (cs : list setter_call) (t : tls)
    (g : globals) : tls * globals :=
  match cs with
  | [] => (t, g)
  | c :: rest =>
      run_calls kernel rest (snd (fst (exec kernel (call_prog c) t g)))
        (snd (exec kernel (call_prog c) t g))
  end.

(** Calls made on threads of their own, each with its own [errno] and
    log, about to run, and the lock free. *)
Definition setters_config (calls : list (setter_call * tls)) (g : globals)
    : config :=
  mk_config None
    (map (fun c => mk_thread (snd c) (call_prog (fst c))) calls) g.

(** Whether the next command of a program is a system call or a load or
    store of a static. *)
Definition touches_shared (p : prog Z) : bool :=
  match p with
  | Sys _ _ => true
  | Glob _ _ => true
  | _ => false
  end.

(** The error lines of the two writers. *)
Definition write_int_fmt : string := "write_int failed to open %s\n".
Definition write_str_fmt : string := "write_str failed to open %s\n".

(** The error lines with the format [f] logged so far, and one more if
    the flag [warned] still allows a warning. *)
Definition warn_budget (f : string) (warned : Z) (l : list logline) : nat :=
  error_lines f l + (if warned =? 0 then 1%nat else 0%nat).

(** The control file a setter writes, and the line it writes there given
    the state and the statics at the call. *)
Definition setter_file (f : set_light_fn) : string :=
  match f with
  | fn_set_light_backlight => LCD_FILE
  | fn_set_light_battery => RGB_CONTROL_FILE
  | fn_set_light_notifications => RGB_CONTROL_FILE
  end.

Definition setter_buffer (f : set_light_fn) (s : light_state_t)
    (g : globals) : string :=
  match f with
  | fn_set_light_backlight => fmt_d (rgb_to_brightness s) ++ nl
  | fn_set_light_battery => led_pattern (g_notification g) s ++ nl
  | fn_set_light_notifications => led_pattern s (g_battery g) ++ nl
  end.

(** Inputs of the further examples. *)
Definition kernel_write_fails : kernel_t :=
  fun _ c =>
    match c with
    | Open _ _ => (3, None)
    | Write _ _ _ => (-1, Some 28)
    | Close _ => (-1, Some 5)
    end.

Definition three_calls : list (setter_call * tls) :=
  [(mk_call fn_set_light_backlight None lit_timed, tls0);
   (mk_call fn_set_light_battery None lit_steady, tls0);
   (mk_call fn_set_light_notifications None lit_timed, tls0)].

Definition schedule_three : list nat :=
  [1; 0; 0; 0; 0; 0; 2; 2; 2; 2; 2; 2; 2; 2;
   1; 1; 1; 1; 1; 1; 1; 1]%nat.

(** The configuration the three calls reach by [schedule_three] on the
    kernel on which every call succeeds. *)
Definition three_calls_final : config :=
  Eval vm_compute in
    match run_schedule kernel_ok schedule_three
            (setters_config three_calls globals0) with
    | Some c => c
    | None => setters_config [] globals0
    end.

(** The three calls after the thread in set backlight has taken the lock:
    it is about to open its file; the other two have not started. *)
Definition backlight_holds_lock : config :=
  mk_config (Some 0%nat)
    [mk_thread tls0
       (err <- write_int LCD_FILE (rgb_to_brightness lit_timed) ;;
        pthread_mutex_unlock ;;
        Ret err);
     mk_thread tls0 (set_light_battery None lit_steady);
     mk_thread tls0 (set_light_notifications None lit_timed)]
    globals0.

(** * Properties *)

(** ** The monad and the writers *)

Lemma exec_bind {A B : Type} (kernel : kernel_t) (p : prog A)
    (h : A -> prog B) :
  forall t g,
    exec kernel (bind p h) t g =
    exec kernel (h (fst (fst (exec kernel p t g))))
      (snd (fst (exec kernel p t g))) (snd (exec kernel p t g)).
Proof.
  induction p as [a|k IH|k IH|k IH|c k IH|k IH|l k IH|C f k IH];
    intros t g; cbn; auto.
Qed.

Lemma skipn_length_app {X : Type} (l evs : list X) :
  skipn (length l) (l ++ evs) = evs.
Proof. induction l; cbn; auto. Qed.

Lemma substring_all (s : string) : substring 0 (String.length s) s = s.
Proof. induction s; cbn; congruence. Qed.

Lemma exec_write_str_syscalls kernel path v t g :
  syscalls (snd (exec kernel (write_str path v) t g)) =
  (syscalls g ++ writer_events kernel (syscalls g) path (v ++ nl))%list.
Proof.
  unfold write_str, writer_events, nl. cbn.
  destruct (0 <=? fst (kernel (syscalls g) (Open path O_RDWR))) eqn:E; cbn.
  - match goal with |- context [if ?c then _ else _] => destruct c end; cbn;
      rewrite <- !app_assoc; reflexivity.
  - destruct (write_str_already_warned g =? 0); reflexivity.
Qed.

Lemma exec_write_int_syscalls kernel path v t g :
  syscalls (snd (exec kernel (write_int path v) t g)) =
  (syscalls g ++ writer_events kernel (syscalls g) path (fmt_d v ++ nl))%list.
Proof.
  unfold write_int, writer_events, nl. cbn.
  destruct (0 <=? fst (kernel (syscalls g) (Open path O_RDWR))) eqn:E; cbn.
  - match goal with |- context [if ?c then _ else _] => destruct c end; cbn;
      rewrite <- !app_assoc; reflexivity.
  - destruct (write_int_already_warned g =? 0); reflexivity.
Qed.

(** [write_str] leaves the two snapshots alone. *)
Lemma exec_write_str_frame kernel path v t g :
  g_notification (snd (exec kernel (write_str path v) t g)) = g_notification g
  /\ g_battery (snd (exec kernel (write_str path v) t g)) = g_battery g.
Proof.
  unfold write_str. cbn.
  destruct (0 <=? fst (kernel (syscalls g) (Open path O_RDWR))); cbn.
  - match goal with |- context [if ?c then _ else _] => destruct c end; cbn;
      auto.
  - destruct (write_str_already_warned g =? 0); cbn; auto.
Qed.

Lemma write_calls_writer_events kernel h path buf :
  write_calls path (writer_events kernel h path buf) =
  if 0 <=? fst (kernel h (Open path O_RDWR)) then [buf] else [].
Proof.
  unfold write_calls, writer_events. cbn.
  destruct (0 <=? fst (kernel h (Open path O_RDWR))) eqn:E; cbn;
    try rewrite E; cbn; auto.
  rewrite Z.eqb_refl. cbn.
  rewrite String.eqb_refl, Nat2Z.id, substring_all. reflexivity.
Qed.

Lemma events_of_write_str kernel path v t g :
  events_of kernel (write_str path v) t g =
  writer_events kernel (syscalls g) path (v ++ nl).
Proof.
  unfold events_of. rewrite exec_write_str_syscalls. apply skipn_length_app.
Qed.

Lemma events_of_write_int kernel path v t g :
  events_of kernel (write_int path v) t g =
  writer_events kernel (syscalls g) path (fmt_d v ++ nl).
Proof.
  unfold events_of. rewrite exec_write_int_syscalls. apply skipn_length_app.
Qed.

(** ** The arbitration routine as one call of [write_str] *)

Lemma exec_set_speaker_light_locked kernel dev s t g :
  exec kernel (set_speaker_light_locked dev s) t g =
  (0, snd (fst (exec kernel (write_str RGB_CONTROL_FILE (blink_pattern s))
                  (add_log (speaker_logline s) t) g)),
   snd (exec kernel (write_str RGB_CONTROL_FILE (blink_pattern s))
          (add_log (speaker_logline s) t) g)).
Proof.
  unfold set_speaker_light_locked, speaker_logline.
  destruct (flash_timing s) as [[onMS offMS] ramp].
  cbn [ALOGD bind exec fst snd]. rewrite exec_bind. reflexivity.
Qed.

Lemma exec_handle_speaker_battery_locked kernel dev t g :
  let n := g_notification g in
  let t1 := if negb (is_lit n =? 0) then add_log (speaker_logline n) t else t in
  let r := exec kernel
             (write_str RGB_CONTROL_FILE (led_pattern n (g_battery g))) t1 g in
  exec kernel (handle_speaker_battery_locked dev) t g
  = (tt, snd (fst r), snd r).
Proof.
  unfold handle_speaker_battery_locked, load, led_pattern.
  cbn [bind exec fst snd].
  destruct (negb (is_lit (g_notification g) =? 0)).
  - rewrite exec_bind, exec_set_speaker_light_locked. reflexivity.
  - cbn [bind exec fst snd].
    destruct (negb (is_lit (g_battery g) =? 0));
      rewrite exec_bind; reflexivity.
Qed.

Lemma events_of_handle kernel dev t g :
  events_of kernel (handle_speaker_battery_locked dev) t g =
  writer_events kernel (syscalls g) RGB_CONTROL_FILE
    (led_pattern (g_notification g) (g_battery g) ++ nl).
Proof.
  unfold events_of. rewrite exec_handle_speaker_battery_locked. cbn [snd].
  rewrite exec_write_str_syscalls. apply skipn_length_app.
Qed.

(** ** Luminance and the backlight *)

Lemma rgb_to_brightness_luma (s : light_state_t) :
  rgb_to_brightness s = luma (color s).
Proof.
  unfold rgb_to_brightness, luma, red, green, blue.
  rewrite !Z.shiftr_land, <- !Z.land_assoc. reflexivity.
Qed.

(** C3: for every light state the backlight setter computes
    [(77*R + 150*G + 29*B) >> 8] over the 8-bit channels of the colour and
    hands its decimal form, followed by a newline, to write(2) on the
    backlight control file (one call when the file opens, none when it does
    not); the colour 0xFFFFFFFF gives 255 and the colour 0 gives 0. *)
Theorem backlight_brightness (kernel : kernel_t) (dev : option nat)
    (s : light_state_t) (t : tls) (g : globals) :
  rgb_to_brightness s = luma (color s)
  /\ events_of kernel (set_light_backlight dev s) t g
     = writer_events kernel (syscalls g) LCD_FILE
         (fmt_d (luma (color s)) ++ nl)
  /\ write_calls LCD_FILE (events_of kernel (set_light_backlight dev s) t g)
     = (if opens kernel (syscalls g) LCD_FILE
        then [fmt_d (luma (color s)) ++ nl] else [])
  /\ (color s = 0xFFFFFFFF -> rgb_to_brightness s = 255)
  /\ (color s = 0x00000000 -> rgb_to_brightness s = 0).
Proof.
  assert (E : events_of kernel (set_light_backlight dev s) t g
              = writer_events kernel (syscalls g) LCD_FILE
                  (fmt_d (luma (color s)) ++ nl)).
  { unfold set_light_backlight, pthread_mutex_lock, pthread_mutex_unlock.
    cbn [bind]. unfold events_of. cbn [exec]. rewrite exec_bind. cbn [exec snd].
    rewrite exec_write_int_syscalls, rgb_to_brightness_luma.
    apply skipn_length_app. }
  split; [apply rgb_to_brightness_luma|].
  split; [exact E|].
  split; [rewrite E; apply write_calls_writer_events|].
  split; intros H; unfold rgb_to_brightness; rewrite H; reflexivity.
Qed.

(** C4, as amended: the luminance conversion takes the colour 0x00FF0000
    (pure red) to 76, the truncation of 77*255/256, whatever the other
    fields of the state. *)
Theorem pure_red_brightness (mode onMS offMS : Z) :
  rgb_to_brightness (mk_light_state 0x00FF0000 mode onMS offMS) = 76.
Proof. reflexivity. Qed.

(** C4, as stated, fails: pure red does not give 77. *)
Lemma pure_red_brightness_is_not_77 :
  rgb_to_brightness pure_red <> 77.
Proof. discriminate. Qed.

(** ** The LED arbitration *)

Lemma is_lit_test (s : light_state_t) :
  (Z.land 0xFFFFFF (color s) =? 0) = (is_lit s =? 0).
Proof. unfold is_lit. rewrite Z.land_comm. reflexivity. Qed.

(** The pattern of a lit state begins with the lower-case white. *)
Lemma blink_pattern_lit (s : light_state_t) :
  is_lit s <> 0 ->
  blink_pattern s =
  "ffffff " ++ fmt_d (fst (fst (flash_timing s))) ++ " "
    ++ fmt_d (snd (fst (flash_timing s))) ++ " "
    ++ fmt_d (snd (flash_timing s)) ++ " " ++ fmt_d (snd (flash_timing s)).
Proof.
  intros H. unfold blink_pattern.
  destruct (flash_timing s) as [[onMS offMS] ramp].
  rewrite is_lit_test. destruct (Z.eqb_spec (is_lit s) 0); [contradiction|].
  reflexivity.
Qed.

Lemma led_pattern_lit (n b : light_state_t) :
  is_lit n <> 0 -> led_pattern n b = blink_pattern n.
Proof.
  intros H. unfold led_pattern.
  destruct (Z.eqb_spec (is_lit n) 0); [contradiction|reflexivity].
Qed.

Lemma led_pattern_unlit (n b : light_state_t) :
  is_lit n = 0 ->
  led_pattern n b =
  if is_lit b =? 0 then "000000 0 0 0 0" else "FFFFFF 1 0 0 0".
Proof.
  intros H. unfold led_pattern. rewrite H. cbn.
  destruct (is_lit b =? 0); reflexivity.
Qed.

(** C1: when the notification snapshot is lit, the arbitration routine
    opens the RGB control file and hands write(2) the blink pattern of the
    notification snapshot and nothing else, whatever the battery snapshot
    holds; the fixed battery pattern is never among the buffers written. *)
Theorem notification_takes_priority (kernel : kernel_t) (dev : option nat)
    (t : tls) (g : globals) :
  is_lit (g_notification g) <> 0 ->
  let evs := events_of kernel (handle_speaker_battery_locked dev) t g in
  evs = writer_events kernel (syscalls g) RGB_CONTROL_FILE
          (blink_pattern (g_notification g) ++ nl)
  /\ write_calls RGB_CONTROL_FILE evs
     = (if opens kernel (syscalls g) RGB_CONTROL_FILE
        then [blink_pattern (g_notification g) ++ nl] else [])
  /\ ~ In ("FFFFFF 1 0 0 0" ++ nl) (write_calls RGB_CONTROL_FILE evs).
Proof.
  intros H evs.
  assert (E : evs = writer_events kernel (syscalls g) RGB_CONTROL_FILE
                      (blink_pattern (g_notification g) ++ nl)).
  { unfold evs. rewrite events_of_handle, led_pattern_lit by exact H.
    reflexivity. }
  assert (W : write_calls RGB_CONTROL_FILE evs
              = (if opens kernel (syscalls g) RGB_CONTROL_FILE
                 then [blink_pattern (g_notification g) ++ nl] else [])).
  { rewrite E. apply write_calls_writer_events. }
  split; [exact E|]. split; [exact W|].
  rewrite W. destruct (opens kernel (syscalls g) RGB_CONTROL_FILE).
  - rewrite (blink_pattern_lit _ H). cbn. intros [F|[]]. discriminate F.
  - intros [].
Qed.

Lemma notification_takes_priority_witness :
  is_lit (g_notification globals_both_lit) <> 0
  /\ is_lit (g_battery globals_both_lit) <> 0
  /\ write_calls RGB_CONTROL_FILE
       (events_of kernel_ok (handle_speaker_battery_locked None) tls0
          globals_both_lit)
     = ["ffffff 100 200 300 300" ++ nl].
Proof.
  split; [discriminate|]. split; [discriminate|].
  exact (proj1 (proj2 (notification_takes_priority kernel_ok None tls0
                         globals_both_lit ltac:(discriminate)))).
Defined.

(** C5: for every notification snapshot with a non-zero RGB channel the
    arbitration routine prints the colour as full white (["%6x"] of
    0xFFFFFF) and hands write(2) on the RGB control file the string
    ["<hex-color> <onMS> <offMS> <ramp> <ramp>"]: the flash durations of
    the snapshot and a ramp of 300 when the flash mode is TIMED, and
    0, 0 and 0 for every other mode. *)
Theorem notification_blink_pattern (kernel : kernel_t) (dev : option nat)
    (t : tls) (g : globals) :
  is_lit (g_notification g) <> 0 ->
  let n := g_notification g in
  let pattern :=
    if flashMode n =? LIGHT_FLASH_TIMED
    then fmt_6x 0xFFFFFF ++ " " ++ fmt_d (flashOnMS n) ++ " "
           ++ fmt_d (flashOffMS n) ++ " 300 300"
    else fmt_6x 0xFFFFFF ++ " 0 0 0 0" in
  fmt_6x 0xFFFFFF = "ffffff"
  /\ events_of kernel (handle_speaker_battery_locked dev) t g
     = writer_events kernel (syscalls g) RGB_CONTROL_FILE (pattern ++ nl)
  /\ write_calls RGB_CONTROL_FILE
       (events_of kernel (handle_speaker_battery_locked dev) t g)
     = (if opens kernel (syscalls g) RGB_CONTROL_FILE
        then [pattern ++ nl] else []).
Proof.
  intros H n pattern.
  assert (P : blink_pattern (g_notification g) = pattern).
  { rewrite (blink_pattern_lit _ H). unfold pattern, n, flash_timing.
    destruct (flashMode (g_notification g) =? LIGHT_FLASH_TIMED);
      reflexivity. }
  split; [reflexivity|].
  rewrite events_of_handle, led_pattern_lit by exact H. rewrite P.
  split; [reflexivity|]. apply write_calls_writer_events.
Qed.

Lemma notification_blink_pattern_witness :
  is_lit lit_steady <> 0
  /\ is_lit lit_timed <> 0
  /\ write_calls RGB_CONTROL_FILE
       (events_of kernel_ok (handle_speaker_battery_locked None) tls0
          (set_g_notification lit_steady globals_battery_lit))
     = ["ffffff 0 0 0 0" ++ nl]
  /\ write_calls RGB_CONTROL_FILE
       (events_of kernel_ok (handle_speaker_battery_locked None) tls0
          globals_both_lit)
     = ["ffffff 100 200 300 300" ++ nl].
Proof.
  split; [discriminate|]. split; [discriminate|]. split.
  - exact (proj2 (proj2 (notification_blink_pattern kernel_ok None tls0
                    (set_g_notification lit_steady globals_battery_lit)
                    ltac:(discriminate)))).
  - exact (proj2 (proj2 (notification_blink_pattern kernel_ok None tls0
                    globals_both_lit ltac:(discriminate)))).
Defined.

(** C6, as amended: when the notification snapshot is not lit, the
    arbitration routine hands write(2) on the RGB control file the fixed
    pattern ["FFFFFF 1 0 0 0"] if the battery snapshot is lit, that is, has
    a non-zero bit among the low 24 bits of its colour, and the fixed
    pattern ["000000 0 0 0 0"] if it is not lit either. *)
Theorem battery_pattern_when_no_notification (kernel : kernel_t)
    (dev : option nat) (t : tls) (g : globals) :
  is_lit (g_notification g) = 0 ->
  let evs := events_of kernel (handle_speaker_battery_locked dev) t g in
  (is_lit (g_battery g) <> 0 ->
   evs = writer_events kernel (syscalls g) RGB_CONTROL_FILE
           ("FFFFFF 1 0 0 0" ++ nl)
   /\ write_calls RGB_CONTROL_FILE evs
      = (if opens kernel (syscalls g) RGB_CONTROL_FILE
         then ["FFFFFF 1 0 0 0" ++ nl] else []))
  /\ (is_lit (g_battery g) = 0 ->
      evs = writer_events kernel (syscalls g) RGB_CONTROL_FILE
              ("000000 0 0 0 0" ++ nl)
      /\ write_calls RGB_CONTROL_FILE evs
         = (if opens kernel (syscalls g) RGB_CONTROL_FILE
            then ["000000 0 0 0 0" ++ nl] else [])).
Proof.
  intros H evs. unfold evs.
  rewrite events_of_handle, led_pattern_unlit by exact H.
  split; intros Hb.
  - destruct (Z.eqb_spec (is_lit (g_battery g)) 0); [contradiction|].
    split; [reflexivity|apply write_calls_writer_events].
  - rewrite Hb. split; [reflexivity|apply write_calls_writer_events].
Qed.

Lemma battery_pattern_when_no_notification_witness :
  is_lit (g_notification globals_battery_lit) = 0
  /\ is_lit (g_battery globals_battery_lit) <> 0
  /\ write_calls RGB_CONTROL_FILE
       (events_of kernel_ok (handle_speaker_battery_locked None) tls0
          globals_battery_lit)
     = ["FFFFFF 1 0 0 0" ++ nl]
  /\ write_calls RGB_CONTROL_FILE
       (events_of kernel_ok (handle_speaker_battery_locked None) tls0
          globals0)
     = ["000000 0 0 0 0" ++ nl].
Proof.
  split; [reflexivity|]. split; [discriminate|]. split.
  - exact (proj2 (proj1 (battery_pattern_when_no_notification kernel_ok None
                           tls0 globals_battery_lit eq_refl)
                    ltac:(discriminate))).
  - exact (proj2 (proj2 (battery_pattern_when_no_notification kernel_ok None
                           tls0 globals0 eq_refl)
                    eq_refl)).
Defined.

(** C6, as stated, fails: a battery colour of 0xFF000000 is non-zero, yet
    with no notification lit the routine writes the all-off pattern. *)
Lemma battery_alpha_only_writes_off :
  is_lit (g_notification globals_battery_alpha) = 0
  /\ color (g_battery globals_battery_alpha) <> 0
  /\ write_calls RGB_CONTROL_FILE
       (events_of kernel_ok (handle_speaker_battery_locked None) tls0
          globals_battery_alpha)
     = ["000000 0 0 0 0" ++ nl]
  /\ write_calls RGB_CONTROL_FILE
       (events_of kernel_ok (handle_speaker_battery_locked None) tls0
          globals_battery_alpha)
     <> ["FFFFFF 1 0 0 0" ++ nl].
Proof.
  split; [reflexivity|]. split; [discriminate|].
  split; [reflexivity|discriminate].
Qed.

(** ** What the setters return *)

Lemma exec_set_light_backlight kernel dev s t g :
  let r := exec kernel (write_int LCD_FILE (rgb_to_brightness s)) t g in
  exec kernel (set_light_backlight dev s) t g
  = (fst (fst r), snd (fst r), snd r).
Proof.
  unfold set_light_backlight, pthread_mutex_lock, pthread_mutex_unlock.
  cbn [bind exec]. rewrite exec_bind. reflexivity.
Qed.

Lemma exec_set_light_notifications kernel dev s t g :
  let r := exec kernel (handle_speaker_battery_locked dev) t
             (set_g_notification s g) in
  exec kernel (set_light_notifications dev s) t g
  = (0, snd (fst r), snd r).
Proof.
  unfold set_light_notifications, pthread_mutex_lock, pthread_mutex_unlock,
    store.
  cbn [bind exec fst snd]. rewrite exec_bind. reflexivity.
Qed.

Lemma exec_set_light_battery kernel dev s t g :
  let r := exec kernel (handle_speaker_battery_locked dev)
             (add_log (battery_logline s) t) (set_g_battery s g) in
  exec kernel (set_light_battery dev s) t g
  = (0, snd (fst r), snd r).
Proof.
  unfold set_light_battery, pthread_mutex_lock, pthread_mutex_unlock,
    store, ALOGD.
  cbn [bind exec fst snd]. rewrite exec_bind. reflexivity.
Qed.

(** A writer whose open(2) fails returns the negation of the [errno] the
    failure left. *)
Lemma write_int_open_failure kernel path v t g :
  opens kernel (syscalls g) path = false ->
  result_of kernel (write_int path v) t g
  = - errno (assign_errno (snd (kernel (syscalls g) (Open path O_RDWR))) t).
Proof.
  unfold opens, result_of, write_int. intros H. cbn. rewrite H. cbn.
  destruct (write_int_already_warned g =? 0); reflexivity.
Qed.

Lemma write_str_open_failure kernel path v t g :
  opens kernel (syscalls g) path = false ->
  result_of kernel (write_str path v) t g
  = - errno (assign_errno (snd (kernel (syscalls g) (Open path O_RDWR))) t).
Proof.
  unfold opens, result_of, write_str. intros H. cbn. rewrite H. cbn.
  destruct (write_str_already_warned g =? 0); reflexivity.
Qed.

(** C2, as amended: when opening the backlight control file fails with
    the error code [e], set backlight returns [-e]; set battery and set
    notifications return 0 on every run, also when opening the RGB control
    file fails. *)
Theorem setter_results_on_open_failure (kernel : kernel_t)
    (dev : option nat) (s : light_state_t) (t : tls) (g : globals) :
  (forall fd e : Z,
      kernel (syscalls g) (Open LCD_FILE O_RDWR) = (fd, Some e) ->
      fd < 0 ->
      result_of kernel (set_light_backlight dev s) t g = - e)
  /\ result_of kernel (set_light_battery dev s) t g = 0
  /\ result_of kernel (set_light_notifications dev s) t g = 0.
Proof.
  split; [|split].
  - intros fd e K Hfd. unfold result_of.
    rewrite exec_set_light_backlight. cbn [fst].
    fold (result_of kernel (write_int LCD_FILE (rgb_to_brightness s)) t g).
    rewrite write_int_open_failure.
    + rewrite K. reflexivity.
    + unfold opens. rewrite K. cbn. apply Z.leb_gt. exact Hfd.
  - unfold result_of. rewrite exec_set_light_battery. reflexivity.
  - unfold result_of. rewrite exec_set_light_notifications. reflexivity.
Qed.

Lemma setter_results_on_open_failure_witness :
  kernel_noent (syscalls globals0) (Open LCD_FILE O_RDWR) = (-1, Some ENOENT)
  /\ result_of kernel_noent (set_light_backlight None lit_timed) tls0 globals0
     = - ENOENT.
Proof.
  split; [reflexivity|].
  exact (proj1 (setter_results_on_open_failure kernel_noent None lit_timed
                  tls0 globals0) (-1) ENOENT eq_refl eq_refl).
Defined.

(** C2, as stated, fails: with the RGB control file failing to open with
    [ENOENT], set battery and set notifications return 0 and not
    [-ENOENT]. *)
Lemma led_setters_hide_open_failure :
  kernel_noent (syscalls globals0) (Open RGB_CONTROL_FILE O_RDWR)
  = (-1, Some ENOENT)
  /\ opens kernel_noent
       (syscalls (set_g_battery lit_timed globals0)) RGB_CONTROL_FILE = false
  /\ errno (snd (fst (exec kernel_noent (set_light_battery None lit_timed)
                        tls0 globals0))) = ENOENT
  /\ result_of kernel_noent (set_light_battery None lit_timed) tls0 globals0
     <> - ENOENT
  /\ result_of kernel_noent (set_light_notifications None lit_timed) tls0
       globals0
     <> - ENOENT.
Proof.
  split; [reflexivity|]. split; [reflexivity|]. split; [reflexivity|].
  split; discriminate.
Qed.

(** ** Opening a light *)

Lemma strcmp_eq (a b : string) : strcmp a b = 0 <-> a = b.
Proof.
  unfold strcmp. split.
  - destruct (String.compare a b) eqn:E; try discriminate.
    intros _. apply String.compare_eq_iff. exact E.
  - intros ->. pose proof (String.compare_antisym b b) as S.
    destruct (String.compare b b); [reflexivity|discriminate S..].
Qed.

Lemma strcmp_neq (a b : string) : a <> b -> (strcmp a b =? 0) = false.
Proof.
  intros H. apply Z.eqb_neq. intros E. apply H, strcmp_eq, E.
Qed.

Lemma update_cell_last (h : list cell) (c c' : cell) :
  update_cell (h ++ [c]) (length h) c' = (h ++ [c'])%list.
Proof. induction h; cbn; congruence. Qed.

Lemma nth_error_last (h : list cell) (c : cell) :
  nth_error (h ++ [c]) (length h) = Some c.
Proof. induction h; cbn; auto. Qed.

(** The run of [open_lights] once the name has selected the setter [f]. *)
Lemma exec_open_lights_found kernel module_ name device t g f :
  (if strcmp LIGHT_ID_BACKLIGHT name =? 0 then Some fn_set_light_backlight
   else if strcmp LIGHT_ID_BATTERY name =? 0 then Some fn_set_light_battery
   else if strcmp LIGHT_ID_NOTIFICATIONS name =? 0
        then Some fn_set_light_notifications
   else None) = Some f ->
  exec kernel (open_lights module_ name device) t g
  = ((0, Some (length (heap g))), t,
     set_heap
       (heap g ++
        [Live (mk_light_device
                 (mk_hw_device HARDWARE_DEVICE_TAG 0 module_
                    (Some fn_close_lights))
                 (Some f))])%list
       (set_g_init true g)).
Proof.
  intros H. unfold open_lights. rewrite H.
  unfold pthread_once, init_globals, pthread_mutex_init, malloc, memset_zero,
    store_dev, store.
  cbn [bind exec fst snd]. destruct (g_init g);
    cbn [bind exec fst snd heap set_heap set_g_init];
    repeat (rewrite ?update_cell_last, ?nth_error_last;
            cbn [bind exec fst snd heap set_heap set_g_init common tag version
                   module close set_light]);
    reflexivity.
Qed.

(** C7: for every name other than the three logical names [open_lights]
    returns [-EINVAL] and changes nothing: the caller's [*device] keeps its
    contents and no cell is allocated.  For each of the three names it
    returns 0 and stores in [*device] a fresh handle whose [set_light] is
    the setter of that name. *)
Theorem open_lights_by_name (kernel : kernel_t) (module_ : Z) (name : string)
    (device : option nat) (t : tls) (g : globals) :
  let r := exec kernel (open_lights module_ name device) t g in
  let handle f :=
    Live (mk_light_device
            (mk_hw_device HARDWARE_DEVICE_TAG 0 module_ (Some fn_close_lights))
            (Some f)) in
  (name <> LIGHT_ID_BACKLIGHT -> name <> LIGHT_ID_BATTERY ->
   name <> LIGHT_ID_NOTIFICATIONS ->
   r = ((- EINVAL, device), t, g))
  /\ (name = LIGHT_ID_BACKLIGHT ->
      fst (fst r) = (0, Some (length (heap g)))
      /\ nth_error (heap (snd r)) (length (heap g))
         = Some (handle fn_set_light_backlight))
  /\ (name = LIGHT_ID_BATTERY ->
      fst (fst r) = (0, Some (length (heap g)))
      /\ nth_error (heap (snd r)) (length (heap g))
         = Some (handle fn_set_light_battery))
  /\ (name = LIGHT_ID_NOTIFICATIONS ->
      fst (fst r) = (0, Some (length (heap g)))
      /\ nth_error (heap (snd r)) (length (heap g))
         = Some (handle fn_set_light_notifications))
  /\ call_set_light fn_set_light_backlight = set_light_backlight
  /\ call_set_light fn_set_light_battery = set_light_battery
  /\ call_set_light fn_set_light_notifications = set_light_notifications.
Proof.
  intros r handle.
  split; [|split; [|split; [|split; [|repeat split]]]].
  - intros H1 H2 H3. unfold r, open_lights.
    rewrite !strcmp_neq by congruence. reflexivity.
  - intros ->. unfold r, handle.
    rewrite (exec_open_lights_found _ _ _ _ _ _ fn_set_light_backlight)
      by reflexivity.
    cbn [fst snd heap set_heap]. split; [reflexivity|apply nth_error_last].
  - intros ->. unfold r, handle.
    rewrite (exec_open_lights_found _ _ _ _ _ _ fn_set_light_battery)
      by reflexivity.
    cbn [fst snd heap set_heap]. split; [reflexivity|apply nth_error_last].
  - intros ->. unfold r, handle.
    rewrite (exec_open_lights_found _ _ _ _ _ _ fn_set_light_notifications)
      by reflexivity.
    cbn [fst snd heap set_heap]. split; [reflexivity|apply nth_error_last].
Qed.

(** ** Setting the battery twice *)

Lemma exec_handle_frame kernel dev t g :
  g_notification (snd (exec kernel (handle_speaker_battery_locked dev) t g))
  = g_notification g
  /\ g_battery (snd (exec kernel (handle_speaker_battery_locked dev) t g))
     = g_battery g.
Proof.
  rewrite exec_handle_speaker_battery_locked. cbn [snd].
  apply exec_write_str_frame.
Qed.

Lemma events_of_set_light_battery kernel dev s t g :
  events_of kernel (set_light_battery dev s) t g
  = writer_events kernel (syscalls g) RGB_CONTROL_FILE
      (led_pattern (g_notification g) s ++ nl).
Proof.
  unfold events_of. rewrite exec_set_light_battery. cbn [snd].
  exact (events_of_handle kernel dev (add_log (battery_logline s) t)
           (set_g_battery s g)).
Qed.

Lemma events_of_set_light_notifications kernel dev s t g :
  events_of kernel (set_light_notifications dev s) t g
  = writer_events kernel (syscalls g) RGB_CONTROL_FILE
      (led_pattern s (g_battery g) ++ nl).
Proof.
  unfold events_of. rewrite exec_set_light_notifications. cbn [snd].
  exact (events_of_handle kernel dev t (set_g_notification s g)).
Qed.

Lemma exec_set_light_battery_frame kernel dev s t g :
  g_notification (snd (exec kernel (set_light_battery dev s) t g))
  = g_notification g
  /\ g_battery (snd (exec kernel (set_light_battery dev s) t g)) = s.
Proof.
  rewrite exec_set_light_battery. cbn [snd].
  destruct (exec_handle_frame kernel dev (add_log (battery_logline s) t)
              (set_g_battery s g)) as [Hn Hb].
  rewrite Hn, Hb. split; reflexivity.
Qed.

(** C8: two calls of set battery in succession with the same state hand
    write(2) on the RGB control file the same buffer both times: each call
    makes the calls of one [write_str] with the pattern chosen from the
    notification snapshot, which the first call leaves as it was, and the
    state given. *)
Theorem set_light_battery_twice (kernel : kernel_t) (dev : option nat)
    (s : light_state_t) (t : tls) (g : globals) :
  let r1 := exec kernel (set_light_battery dev s) t g in
  let t1 := snd (fst r1) in
  let g1 := snd r1 in
  let buf := led_pattern (g_notification g) s ++ nl in
  g_notification g1 = g_notification g
  /\ events_of kernel (set_light_battery dev s) t g
     = writer_events kernel (syscalls g) RGB_CONTROL_FILE buf
  /\ events_of kernel (set_light_battery dev s) t1 g1
     = writer_events kernel (syscalls g1) RGB_CONTROL_FILE buf
  /\ write_calls RGB_CONTROL_FILE
       (events_of kernel (set_light_battery dev s) t g)
     = (if opens kernel (syscalls g) RGB_CONTROL_FILE then [buf] else [])
  /\ write_calls RGB_CONTROL_FILE
       (events_of kernel (set_light_battery dev s) t1 g1)
     = (if opens kernel (syscalls g1) RGB_CONTROL_FILE then [buf] else []).
Proof.
  intros r1 t1 g1 buf.
  assert (N : g_notification g1 = g_notification g)
    by apply exec_set_light_battery_frame.
  split; [exact N|].
  rewrite !events_of_set_light_battery, N. fold buf.
  repeat split; apply write_calls_writer_events.
Qed.

(** ** The alpha channel *)

Lemma alpha_eq_is_lit s1 s2 : alpha_eq s1 s2 -> is_lit s1 = is_lit s2.
Proof. intros [H _]. exact H. Qed.

Lemma alpha_eq_rgb_to_brightness s1 s2 :
  alpha_eq s1 s2 -> rgb_to_brightness s1 = rgb_to_brightness s2.
Proof. intros [H _]. unfold rgb_to_brightness. rewrite H. reflexivity. Qed.

Lemma alpha_eq_blink_pattern s1 s2 :
  alpha_eq s1 s2 -> blink_pattern s1 = blink_pattern s2.
Proof.
  intros (Hc & Hm & Hon & Hoff). unfold blink_pattern, flash_timing.
  rewrite !is_lit_test. unfold is_lit. rewrite Hc, Hm, Hon, Hoff. reflexivity.
Qed.

Lemma alpha_eq_led_pattern n1 n2 b1 b2 :
  alpha_eq n1 n2 -> alpha_eq b1 b2 -> led_pattern n1 b1 = led_pattern n2 b2.
Proof.
  intros Hn Hb. unfold led_pattern.
  rewrite (alpha_eq_is_lit _ _ Hn), (alpha_eq_is_lit _ _ Hb),
    (alpha_eq_blink_pattern _ _ Hn).
  reflexivity.
Qed.

Lemma alpha_eq_refl s : alpha_eq s s.
Proof. repeat split. Qed.

Lemma globals_alpha_eq_refl g : globals_alpha_eq g g.
Proof. repeat split. Qed.

Lemma errno_assign_errno e t1 t2 :
  errno t1 = errno t2 -> errno (assign_errno e t1) = errno (assign_errno e t2).
Proof. destruct e; cbn; auto. Qed.

Lemma errno_add_log l1 l2 t1 t2 :
  errno t1 = errno t2 -> errno (add_log l1 t1) = errno (add_log l2 t2).
Proof. cbn. auto. Qed.

Ltac alpha_split :=
  repeat match goal with
         | |- _ /\ _ => split
         | |- errno (assign_errno _ _) = errno (assign_errno _ _) =>
             apply errno_assign_errno
         | |- errno (add_log _ _) = errno (add_log _ _) =>
             apply errno_add_log
         end;
  cbn; auto.

Lemma exec_write_str_alpha kernel path v t1 t2 g1 g2 :
  errno t1 = errno t2 -> globals_alpha_eq g1 g2 ->
  run_alpha_eq (exec kernel (write_str path v) t1 g1)
    (exec kernel (write_str path v) t2 g2).
Proof.
  intros He (Hi & Hn & Hb & Hwi & Hws & Hh & Hs).
  unfold run_alpha_eq, globals_alpha_eq, write_str. cbn.
  rewrite Hs.
  destruct (0 <=? fst (kernel (syscalls g2) (Open path O_RDWR))); cbn.
  - rewrite Hs.
    match goal with |- context [if ?c then _ else _] => destruct c end;
      cbn; rewrite ?Hs; alpha_split.
    f_equal. alpha_split.
  - rewrite Hws. destruct (write_str_already_warned g2 =? 0); cbn;
      rewrite ?Hs; alpha_split; f_equal; alpha_split.
Qed.

Lemma exec_write_int_alpha kernel path v t1 t2 g1 g2 :
  errno t1 = errno t2 -> globals_alpha_eq g1 g2 ->
  run_alpha_eq (exec kernel (write_int path v) t1 g1)
    (exec kernel (write_int path v) t2 g2).
Proof.
  intros He (Hi & Hn & Hb & Hwi & Hws & Hh & Hs).
  unfold run_alpha_eq, globals_alpha_eq, write_int. cbn.
  rewrite Hs.
  destruct (0 <=? fst (kernel (syscalls g2) (Open path O_RDWR))); cbn.
  - rewrite Hs.
    match goal with |- context [if ?c then _ else _] => destruct c end;
      cbn; rewrite ?Hs; alpha_split.
    f_equal. alpha_split.
  - rewrite Hwi. destruct (write_int_already_warned g2 =? 0); cbn;
      rewrite ?Hs; alpha_split; f_equal; alpha_split.
Qed.

Lemma exec_handle_alpha kernel dev t1 t2 g1 g2 :
  errno t1 = errno t2 -> globals_alpha_eq g1 g2 ->
  run_alpha_eq (exec kernel (handle_speaker_battery_locked dev) t1 g1)
    (exec kernel (handle_speaker_battery_locked dev) t2 g2).
Proof.
  intros He Hg. pose proof Hg as (Hi & Hn & Hb & _).
  rewrite !exec_handle_speaker_battery_locked.
  rewrite (alpha_eq_led_pattern _ _ _ _ Hn Hb), (alpha_eq_is_lit _ _ Hn).
  match goal with
  | |- run_alpha_eq (_, snd (fst (exec _ ?p ?ta g1)), _)
         (_, snd (fst (exec _ ?p ?tb g2)), _) =>
      assert (Ht : errno ta = errno tb)
        by (destruct (negb (is_lit (g_notification g2) =? 0));
            [apply errno_add_log|]; exact He);
      destruct (exec_write_str_alpha kernel RGB_CONTROL_FILE
                  (led_pattern (g_notification g2) (g_battery g2))
                  ta tb g1 g2 Ht Hg) as (_ & He' & Hg')
  end.
  repeat split; [exact He'|apply Hg'..].
Qed.

Lemma set_g_notification_alpha s1 s2 g1 g2 :
  alpha_eq s1 s2 -> globals_alpha_eq g1 g2 ->
  globals_alpha_eq (set_g_notification s1 g1) (set_g_notification s2 g2).
Proof.
  intros Hs (Hi & Hn & Hb & Hwi & Hws & Hh & Hsys).
  repeat split; cbn; auto; apply Hs || apply Hb.
Qed.

Lemma set_g_battery_alpha s1 s2 g1 g2 :
  alpha_eq s1 s2 -> globals_alpha_eq g1 g2 ->
  globals_alpha_eq (set_g_battery s1 g1) (set_g_battery s2 g2).
Proof.
  intros Hs (Hi & Hn & Hb & Hwi & Hws & Hh & Hsys).
  repeat split; cbn; auto; apply Hs || apply Hn.
Qed.

Lemma exec_call_set_light_alpha kernel f dev s1 s2 t1 t2 g1 g2 :
  alpha_eq s1 s2 -> errno t1 = errno t2 -> globals_alpha_eq g1 g2 ->
  run_alpha_eq (exec kernel (call_set_light f dev s1) t1 g1)
    (exec kernel (call_set_light f dev s2) t2 g2).
Proof.
  intros Hs He Hg. destruct f; cbn [call_set_light].
  - rewrite !exec_set_light_backlight, (alpha_eq_rgb_to_brightness _ _ Hs).
    destruct (exec_write_int_alpha kernel LCD_FILE (rgb_to_brightness s2)
                t1 t2 g1 g2 He Hg) as (Hr & He' & Hg').
    repeat split; [exact Hr|exact He'|apply Hg'..].
  - rewrite !exec_set_light_battery.
    destruct (exec_handle_alpha kernel dev
                (add_log (battery_logline s1) t1)
                (add_log (battery_logline s2) t2)
                (set_g_battery s1 g1) (set_g_battery s2 g2)
                (errno_add_log _ _ _ _ He)
                (set_g_battery_alpha _ _ _ _ Hs Hg)) as (_ & He' & Hg').
    repeat split; [exact He'|apply Hg'..].
  - rewrite !exec_set_light_notifications.
    destruct (exec_handle_alpha kernel dev t1 t2
                (set_g_notification s1 g1) (set_g_notification s2 g2)
                He (set_g_notification_alpha _ _ _ _ Hs Hg))
      as (_ & He' & Hg').
    repeat split; [exact He'|apply Hg'..].
Qed.

(** C9: light states that differ only in the alpha channel are told apart
    by no operation.  [is_lit] and the backlight brightness are equal on
    them, and each setter, run on two such states from statics whose
    snapshots differ at most in their alpha channels, returns the same
    value and makes the same system calls, with the same buffers, and
    leaves statics that again differ at most in the alpha channels. *)
Theorem alpha_channel_is_ignored (kernel : kernel_t) (dev : option nat)
    (s1 s2 : light_state_t) (t1 t2 : tls) (g1 g2 : globals) :
  alpha_eq s1 s2 -> errno t1 = errno t2 -> globals_alpha_eq g1 g2 ->
  is_lit s1 = is_lit s2
  /\ rgb_to_brightness s1 = rgb_to_brightness s2
  /\ led_pattern s1 (g_battery g1) = led_pattern s2 (g_battery g2)
  /\ led_pattern (g_notification g1) s1 = led_pattern (g_notification g2) s2
  /\ forall f : set_light_fn,
       run_alpha_eq (exec kernel (call_set_light f dev s1) t1 g1)
         (exec kernel (call_set_light f dev s2) t2 g2)
       /\ events_of kernel (call_set_light f dev s1) t1 g1
          = events_of kernel (call_set_light f dev s2) t2 g2.
Proof.
  intros Hs He Hg. pose proof Hg as (_ & Hn & Hb & _ & _ & _ & Hsys).
  split; [apply alpha_eq_is_lit, Hs|].
  split; [apply alpha_eq_rgb_to_brightness, Hs|].
  split; [apply alpha_eq_led_pattern; assumption|].
  split; [apply alpha_eq_led_pattern; assumption|].
  intros f.
  pose proof (exec_call_set_light_alpha kernel f dev s1 s2 t1 t2 g1 g2
                Hs He Hg) as R.
  split; [exact R|].
  destruct R as (_ & _ & (_ & _ & _ & _ & _ & _ & Hsys')).
  unfold events_of. rewrite Hsys, Hsys'. reflexivity.
Qed.

Lemma alpha_channel_is_ignored_witness :
  alpha_eq lit_timed (mk_light_state 0x0000ff00 1 100 200)
  /\ is_lit lit_timed = is_lit (mk_light_state 0x0000ff00 1 100 200)
  /\ events_of kernel_ok (set_light_notifications None lit_timed) tls0
       globals0
     = events_of kernel_ok
         (set_light_notifications None (mk_light_state 0x0000ff00 1 100 200))
         tls0 globals0.
Proof.
  assert (H : alpha_eq lit_timed (mk_light_state 0x0000ff00 1 100 200))
    by (repeat split).
  split; [exact H|].
  pose proof (alpha_channel_is_ignored kernel_ok None lit_timed
                (mk_light_state 0x0000ff00 1 100 200) tls0 tls0
                globals0 globals0 H eq_refl (globals_alpha_eq_refl globals0))
    as (L & _ & _ & _ & F).
  split; [exact L|].
  exact (proj2 (F fn_set_light_notifications)).
Defined.

(** ** Several threads: the setters are serialized *)

Lemma nth_error_set_thread_eq ths i th th' :
  nth_error ths i = Some th -> nth_error (set_thread ths i th') i = Some th'.
Proof.
  revert i. induction ths as [|x ths IH]; intros [|i]; cbn; try discriminate;
    auto.
Qed.

Lemma nth_error_set_thread_neq ths i j th' :
  i <> j -> nth_error (set_thread ths i th') j = nth_error ths j.
Proof.
  revert i j. induction ths as [|x ths IH]; intros [|i] [|j] H; cbn; auto.
  - contradiction.
Qed.

Lemma set_thread_twice ths i a b :
  set_thread (set_thread ths i a) i b = set_thread ths i b.
Proof.
  revert i. induction ths as [|x ths IH]; intros [|i]; cbn; auto.
  rewrite IH. reflexivity.
Qed.

Lemma set_thread_comm ths i j a b :
  i <> j ->
  set_thread (set_thread ths i a) j b = set_thread (set_thread ths j b) i a.
Proof.
  revert i j. induction ths as [|x ths IH]; intros [|i] [|j] H; cbn; auto.
  - contradiction.
  - rewrite IH by congruence. reflexivity.
Qed.

Lemma inside_unfinished t p : inside p -> finished (mk_thread t p) = false.
Proof. destruct p; cbn; intros H; auto; contradiction. Qed.

Lemma guarded_unfinished t p : guarded p -> finished (mk_thread t p) = false.
Proof. destruct p; cbn; intros H; auto; contradiction. Qed.

(** What a step of thread [i] is, when every thread is where the lock
    says: the thread takes or keeps the lock, or releases it and has
    returned, or runs a command on its own state outside the lock.  In
    each case what the thread has left runs, alone, as what it had. *)
Lemma step_thread_inv kernel i c c1 :
  well_locked c -> step_thread kernel i c = Some c1 ->
  exists th th1,
    nth_error (threads c) i = Some th
    /\ finished th = false
    /\ threads c1 = set_thread (threads c) i th1
    /\ exec kernel (th_prog th1) (th_tls th1) (shared c1)
       = exec kernel (th_prog th) (th_tls th) (shared c)
    /\ ((g_lock c1 = Some i /\ (g_lock c = None \/ g_lock c = Some i)
         /\ inside (th_prog th1))
        \/ (g_lock c = Some i /\ g_lock c1 = None /\ finished th1 = true)
        \/ (g_lock c1 = g_lock c /\ g_lock c <> Some i
            /\ shared c1 = shared c /\ guarded (th_prog th1)
            /\ forall g, exec kernel (th_prog th1) (th_tls th1) g
                         = exec kernel (th_prog th) (th_tls th) g)).
Proof.
  intros [_ WL] H. unfold step_thread in H.
  destruct (nth_error (threads c) i) as [th|] eqn:Hth; [|discriminate].
  specialize (WL i th Hth). destruct th as [t p]. cbn [th_prog th_tls] in *.
  exists (mk_thread t p).
  destruct (g_lock c) as [j|] eqn:L; [destruct (Nat.eqb_spec j i) as [->|N]|];
    destruct p; cbn in WL; try contradiction;
    try (destruct WL as [WL|WL]; try contradiction; try discriminate WL);
    try discriminate H;
    try (rewrite Nat.eqb_refl in H);
    injection H as <-; eexists; cbn;
    (split; [reflexivity|]); (split; [reflexivity|]);
    (split; [reflexivity|]); (split; [reflexivity|]).
  all: try (left; split; [reflexivity|]; split; [auto|]; cbn; auto; fail).
  all: try (left; split; [reflexivity|]; split; [auto|]; cbn; apply WL; fail).
  all: try (right; right; repeat split; cbn; auto; congruence).
  - right; left. destruct p; try contradiction. repeat split.
Qed.

Lemma step_thread_well_locked kernel i c c1 :
  well_locked c -> step_thread kernel i c = Some c1 -> well_locked c1.
Proof.
  intros WL H.
  destruct (step_thread_inv kernel i c c1 WL H)
    as (th & th1 & Hth & _ & Hths & _ & Hcase).
  destruct WL as [WL1 WL2]. split.
  - intros j Hj. rewrite Hths.
    destruct (Nat.eq_dec i j) as [<-|N].
    + rewrite (nth_error_set_thread_eq _ _ _ _ Hth). discriminate.
    + rewrite nth_error_set_thread_neq by exact N.
      destruct Hcase as [(L1 & _)|[(_ & L1 & _)|(L1 & _)]].
      * congruence.
      * congruence.
      * apply WL1. congruence.
  - intros j thj. rewrite Hths.
    destruct (Nat.eq_dec i j) as [<-|N].
    + rewrite (nth_error_set_thread_eq _ _ _ _ Hth). intros [= <-].
      destruct Hcase as [(L1 & _ & P)|[(_ & L1 & P)|(L1 & L & _ & P & _)]].
      * rewrite L1, Nat.eqb_refl. exact P.
      * rewrite L1. right. exact P.
      * rewrite L1. destruct (g_lock c) as [k|]; [|left; exact P].
        destruct (Nat.eqb_spec k i) as [->|_]; [congruence|left; exact P].
    + rewrite nth_error_set_thread_neq by exact N. intros Hj.
      specialize (WL2 j thj Hj).
      destruct Hcase as [(L1 & [L|L] & _)|[(L & L1 & _)|(L1 & _)]].
      * rewrite L in WL2. rewrite L1.
        destruct (Nat.eqb_spec i j); [contradiction|exact WL2].
      * rewrite L in WL2. rewrite L1. exact WL2.
      * rewrite L in WL2. rewrite L1.
        destruct (Nat.eqb_spec i j); [contradiction|exact WL2].
      * rewrite L1. exact WL2.
Qed.

(** Running thread [i] to its end gives the same from two configurations
    in which what it has left runs as the same. *)
Lemma run_to_end_same kernel i ths th th1 g g1 :
  nth_error ths i = Some th ->
  exec kernel (th_prog th1) (th_tls th1) g1
  = exec kernel (th_prog th) (th_tls th) g ->
  run_to_end kernel i (set_thread ths i th1) g1 = run_to_end kernel i ths g.
Proof.
  intros Hth E. unfold run_to_end.
  rewrite (nth_error_set_thread_eq _ _ _ _ Hth), Hth, E, set_thread_twice.
  reflexivity.
Qed.

(** A thread of [order] that has made steps on its own state only does
    not change the serial run. *)
Lemma serial_same kernel order :
  forall ths i th th1 g,
    In i order ->
    nth_error ths i = Some th ->
    (forall g', exec kernel (th_prog th1) (th_tls th1) g'
                = exec kernel (th_prog th) (th_tls th) g') ->
    serial kernel order (set_thread ths i th1) g = serial kernel order ths g.
Proof.
  induction order as [|j order IH]; intros ths i th th1 g Hin Hth E;
    [contradiction|].
  cbn [serial]. destruct (Nat.eq_dec j i) as [->|N].
  - rewrite (run_to_end_same kernel i ths th th1 g g Hth (E g)). reflexivity.
  - destruct Hin as [Hin|Hin]; [contradiction|].
    unfold run_to_end at 1 2.
    rewrite nth_error_set_thread_neq by congruence.
    unfold run_to_end.
    destruct (nth_error ths j) as [thj|] eqn:Hj; cbn [fst snd].
    + rewrite set_thread_comm by congruence.
      apply (IH _ i th); auto.
      rewrite nth_error_set_thread_neq by exact N. exact Hth.
    + apply (IH _ i th); auto.
Qed.

Lemma pending_set_thread ths i th th1 j :
  nth_error ths i = Some th -> finished th = false -> finished th1 = false ->
  pending (set_thread ths i th1) j <-> pending ths j.
Proof.
  intros Hth F F1. unfold pending. destruct (Nat.eq_dec i j) as [<-|N].
  - rewrite (nth_error_set_thread_eq _ _ _ _ Hth), Hth.
    split; intros _; eexists; split; eauto.
  - rewrite nth_error_set_thread_neq by exact N. reflexivity.
Qed.

Lemma all_returned_not_pending c i :
  all_returned c = true -> ~ pending (threads c) i.
Proof.
  unfold all_returned. intros A (th & Hth & F).
  rewrite forallb_forall in A.
  rewrite (A th (nth_error_In _ _ Hth)) in F. discriminate.
Qed.

Lemma all_returned_unlocked c :
  well_locked c -> all_returned c = true -> g_lock c = None.
Proof.
  intros [WL1 WL2] A. destruct (g_lock c) as [j|] eqn:L; [|reflexivity].
  specialize (WL1 j eq_refl).
  destruct (nth_error (threads c) j) as [th|] eqn:Hth; [|contradiction].
  specialize (WL2 j th Hth). rewrite Nat.eqb_refl in WL2.
  exfalso. apply (all_returned_not_pending c j A).
  exists th. split; [exact Hth|]. destruct th. apply inside_unfinished, WL2.
Qed.

Lemma run_schedule_well_locked kernel sched :
  forall c c',
    well_locked c -> run_schedule kernel sched c = Some c' -> well_locked c'.
Proof.
  induction sched as [|i sched IH]; intros c c' WL R; cbn in R.
  - injection R as <-. exact WL.
  - destruct (step_thread kernel i c) as [c1|] eqn:S; [|discriminate].
    apply (IH c1 c'); [|exact R].
    apply (step_thread_well_locked kernel i c c1 WL S).
Qed.

(** Every run of the threads is the beginning of a serial run: however
    the pending threads of the configuration reached are then run one
    after the other, the outcome is that of running the threads pending
    at the start one after the other, in some order, each alone to its
    end. *)
Lemma serialization kernel sched :
  forall c c' order',
    well_locked c ->
    run_schedule kernel sched c = Some c' ->
    serial_order c' order' ->
    exists order,
      serial_order c order
      /\ serial kernel order (threads c) (shared c)
         = serial kernel order' (threads c') (shared c').
Proof.
  induction sched as [|i sched IH]; intros c c' order' WL R O'.
  - injection R as <-. exists order'. split; [exact O'|reflexivity].
  - cbn [run_schedule] in R.
    destruct (step_thread kernel i c) as [c1|] eqn:S; [|discriminate].
    pose proof (step_thread_well_locked kernel i c c1 WL S) as WL1.
    destruct (IH c1 c' order' WL1 R O') as (order1 & (ND & Hin & Hlock) & Hser).
    destruct (step_thread_inv kernel i c c1 WL S)
      as (th & th1 & Hth & F & Hths & E & Hcase).
    destruct Hcase as [(L1 & L & P)|[(L & L1 & F1)|(L1 & L & G & P & E')]].
    + destruct (Hlock i L1) as (rest & ->).
      exists (i :: rest).
      assert (F1 : finished th1 = false)
        by (destruct th1; apply inside_unfinished, P).
      split; [split; [exact ND|split]|].
      * intros j. rewrite Hin, Hths.
        apply (pending_set_thread _ _ _ _ _ Hth F F1).
      * intros j Hj. exists rest. destruct L; congruence.
      * rewrite <- Hser, Hths. cbn [serial].
        rewrite (run_to_end_same kernel i _ th th1 _ _ Hth E). reflexivity.
    + assert (Hth1 : nth_error (threads c1) i = Some th1)
        by (rewrite Hths; apply (nth_error_set_thread_eq _ _ _ _ Hth)).
      assert (Hnot : ~ In i order1).
      { intros Hi. apply Hin in Hi. destruct Hi as (th' & Hth' & F').
        congruence. }
      exists (i :: order1).
      split; [split; [constructor; assumption|split]|].
      * intros j. cbn [In]. rewrite Hin, Hths.
        destruct (Nat.eq_dec i j) as [<-|N].
        -- split; [intros _; exists th; auto|auto].
        -- unfold pending. rewrite nth_error_set_thread_neq by exact N.
           split; [intros [?|?]; [contradiction|assumption]|auto].
      * intros j Hj. exists order1. congruence.
      * rewrite <- Hser. cbn [serial]. f_equal.
        -- unfold run_to_end. rewrite Hth, <- E, Hths.
           destruct th1 as [t1 p1]. destruct p1; try discriminate F1.
           reflexivity.
        -- unfold run_to_end. rewrite Hth, <- E.
           destruct th1 as [t1 p1]. destruct p1; try discriminate F1.
           reflexivity.
    + assert (F1 : finished th1 = false)
        by (destruct th1; apply guarded_unfinished, P).
      assert (Hi : In i order1).
      { apply Hin. exists th1. split; [|exact F1].
        rewrite Hths. apply (nth_error_set_thread_eq _ _ _ _ Hth). }
      exists order1.
      split; [split; [exact ND|split]|].
      * intros j. rewrite Hin, Hths.
        apply (pending_set_thread _ _ _ _ _ Hth F F1).
      * intros j Hj. apply Hlock. congruence.
      * rewrite <- Hser, Hths, G.
        symmetry. apply (serial_same kernel order1 _ i th th1); auto.
Qed.

(** When every thread has returned, nothing is left to run. *)
Lemma serial_order_all_returned c :
  well_locked c -> all_returned c = true -> serial_order c [].
Proof.
  intros WL A. split; [constructor|split].
  - intros i. split; [contradiction|].
    intros P. exact (all_returned_not_pending c i A P).
  - intros j Hj. rewrite (all_returned_unlocked c WL A) in Hj. discriminate.
Qed.

(** *** The setters keep the lock discipline *)

Lemma section_body_bind {A B : Type} (p : prog A) (h : A -> prog B) :
  section_body p -> (forall a, section_body (h a)) -> section_body (bind p h).
Proof.
  intros Hp Hh.
  induction p as [a|k IH|k IH|k IH|c k IH|k IH|l k IH|C f k IH]; cbn in *;
    auto; try contradiction.
  destruct Hp as [Hf Hk]. split; auto.
Qed.

Lemma inside_bind {A : Type} (p : prog A) (h : A -> prog Z) :
  section_body p -> (forall a, inside (h a)) -> inside (bind p h).
Proof.
  intros Hp Hh.
  induction p as [a|k IH|k IH|k IH|c k IH|k IH|l k IH|C f k IH]; cbn in *;
    auto; try contradiction.
  destruct Hp as [Hf Hk]. split; auto.
Qed.

Lemma section_body_write_str path v : section_body (write_str path v).
Proof.
  unfold write_str. cbn. intros fd. destruct (0 <=? fd); cbn.
  - intros amt _. destruct (amt =? -1); cbn; auto.
  - split; [reflexivity|]. intros w. destruct (w =? 0); cbn; auto.
Qed.

Lemma section_body_write_int path v : section_body (write_int path v).
Proof.
  unfold write_int. cbn. intros fd. destruct (0 <=? fd); cbn.
  - intros amt _. destruct (amt =? -1); cbn; auto.
  - split; [reflexivity|]. intros w. destruct (w =? 0); cbn; auto.
Qed.

Lemma section_body_handle dev :
  section_body (handle_speaker_battery_locked dev).
Proof.
  unfold handle_speaker_battery_locked, load. cbn [bind section_body fst snd].
  split; [reflexivity|]. intros n. destruct (negb (is_lit n =? 0)).
  - apply section_body_bind; [|intros; exact I].
    unfold set_speaker_light_locked.
    destruct (flash_timing n) as [[onMS offMS] ramp].
    cbn [ALOGD bind section_body].
    apply section_body_bind; [apply section_body_write_str|intros; exact I].
  - cbn [bind section_body fst snd]. split; [reflexivity|]. intros b.
    destruct (negb (is_lit b =? 0));
      (apply section_body_bind; [apply section_body_write_str|intros; exact I]).
Qed.

Lemma guarded_call_set_light f dev s : guarded (call_set_light f dev s).
Proof.
  destruct f; cbn [call_set_light].
  - unfold set_light_backlight, pthread_mutex_lock. cbn [bind guarded].
    apply inside_bind; [apply section_body_write_int|].
    intros err. exact I.
  - unfold set_light_battery, pthread_mutex_lock, store, ALOGD.
    cbn [bind guarded inside fst snd]. split; [reflexivity|]. intros _.
    apply inside_bind; [apply section_body_handle|]. intros _. exact I.
  - unfold set_light_notifications, pthread_mutex_lock, store.
    cbn [bind guarded inside fst snd]. split; [reflexivity|]. intros _.
    apply inside_bind; [apply section_body_handle|]. intros _. exact I.
Qed.

(** *** Runs only add to the history *)

Lemma extends_refl h : extends h h.
Proof. exists []. symmetry. apply app_nil_r. Qed.

Lemma extends_trans h1 h2 h3 :
  extends h1 h2 -> extends h2 h3 -> extends h1 h3.
Proof.
  intros [e1 ->] [e2 ->]. exists (e1 ++ e2)%list. symmetry. apply app_assoc.
Qed.

Lemma exec_extends_inside kernel p :
  forall t g,
    inside p ->
    extends (syscalls g) (syscalls (snd (exec kernel p t g))).
Proof.
  induction p as [a|k IH|k IH|k IH|c k IH|k IH|l k IH|C f k IH];
    intros t g H; cbn in *; try contradiction; auto.
  - destruct k; try contradiction. apply extends_refl.
  - eapply extends_trans; [|apply IH, H].
    exists [(c, fst (kernel (syscalls g) c))]. reflexivity.
  - destruct H as [Hf Hk]. rewrite <- (Hf g) at 1. apply IH, Hk.
Qed.

Lemma exec_extends_guarded kernel p :
  forall t g,
    guarded p ->
    extends (syscalls g) (syscalls (snd (exec kernel p t g))).
Proof.
  induction p as [a|k IH|k IH|k IH|c k IH|k IH|l k IH|C f k IH];
    intros t g H; cbn in *; try contradiction; auto.
  apply exec_extends_inside, H.
Qed.

Lemma well_locked_phase c i th :
  well_locked c -> nth_error (threads c) i = Some th ->
  inside (th_prog th) \/ guarded (th_prog th) \/ finished th = true.
Proof.
  intros [_ WL] Hth. specialize (WL i th Hth).
  destruct (match g_lock c with Some j => Nat.eqb j i | None => false end);
    tauto.
Qed.

Lemma serial_extends kernel order :
  forall ths g,
    (forall i th, nth_error ths i = Some th ->
                  inside (th_prog th) \/ guarded (th_prog th)
                  \/ finished th = true) ->
    extends (syscalls g) (syscalls (snd (serial kernel order ths g))).
Proof.
  induction order as [|i order IH]; intros ths g H; cbn [serial].
  - apply extends_refl.
  - unfold run_to_end. destruct (nth_error ths i) as [th|] eqn:Hth;
      cbn [fst snd]; [|apply IH, H].
    eapply extends_trans; [|apply IH].
    + destruct (H i th Hth) as [P|[P|P]].
      * apply exec_extends_inside, P.
      * apply exec_extends_guarded, P.
      * destruct th as [t p]. destruct p; try discriminate P.
        apply extends_refl.
    + intros j thj. destruct (Nat.eq_dec i j) as [<-|N].
      * rewrite (nth_error_set_thread_eq _ _ _ _ Hth). intros [= <-].
        right. right. reflexivity.
      * rewrite nth_error_set_thread_neq by exact N. apply H.
Qed.

Lemma completion_order_serial c :
  well_locked c -> serial_order c (completion_order c).
Proof.
  intros WL. pose proof WL as [WL1 WL2].
  assert (Hf : forall j i,
             In i (filter (fun i =>
                             match nth_error (threads c) i with
                             | Some th =>
                                 negb (finished th) && negb (Nat.eqb i j)
                             | None => false
                             end) (seq 0 (length (threads c))))
             <-> pending (threads c) i /\ i <> j).
  { intros j i. rewrite filter_In, in_seq. unfold pending. split.
    - intros [_ H].
      destruct (nth_error (threads c) i) as [th|]; [|discriminate].
      apply andb_true_iff in H. destruct H as [H1 H2].
      apply negb_true_iff in H1. apply negb_true_iff, Nat.eqb_neq in H2.
      split; [exists th; auto|exact H2].
    - intros [(th & Hth & F) N]. split.
      + split; [lia|]. cbn. apply nth_error_Some. congruence.
      + rewrite Hth, F. cbn. apply negb_true_iff, Nat.eqb_neq, N. }
  unfold serial_order, completion_order.
  destruct (g_lock c) as [j|] eqn:L.
  - split; [|split].
    + constructor.
      * rewrite Hf. intros [_ N]. contradiction.
      * apply NoDup_filter, seq_NoDup.
    + intros i. cbn [In]. rewrite Hf. split.
      * intros [<-|[P _]]; [|exact P].
        specialize (WL1 j eq_refl).
        destruct (nth_error (threads c) j) as [th|] eqn:Hth; [|contradiction].
        specialize (WL2 j th Hth). rewrite ?L, Nat.eqb_refl in WL2.
        exists th. split; [exact Hth|].
        destruct th. apply inside_unfinished, WL2.
      * intros P. destruct (Nat.eq_dec j i); [left; assumption|].
        right. split; [exact P|congruence].
    + intros k [= <-]. eexists. reflexivity.
  - split; [|split].
    + apply NoDup_filter, seq_NoDup.
    + intros i. rewrite Hf. split; [tauto|].
      intros P. split; [exact P|]. destruct P as (th & Hth & _).
      apply Nat.lt_neq, nth_error_Some. congruence.
    + discriminate.
Qed.

(** Two pending threads can run one after the other in two orders. *)
Lemma serial_order_two c :
  g_lock c = None ->
  (forall i, pending (threads c) i <-> i = 0%nat \/ i = 1%nat) ->
  forall order, serial_order c order ->
                order = [0%nat; 1%nat] \/ order = [1%nat; 0%nat].
Proof.
  intros L P order (ND & Hin & _).
  assert (H : forall i, In i order <-> i = 0%nat \/ i = 1%nat)
    by (intros i; rewrite Hin; apply P).
  assert (H0 : In 0%nat order) by (apply H; auto).
  assert (H1 : In 1%nat order) by (apply H; auto).
  destruct order as [|a [|b [|x rest]]].
  - contradiction.
  - cbn in H0, H1. lia.
  - inversion ND as [|? ? Hab _]; subst.
    assert (Ha : a = 0%nat \/ a = 1%nat) by (apply H; left; reflexivity).
    assert (Hb : b = 0%nat \/ b = 1%nat)
      by (apply H; right; left; reflexivity).
    destruct Ha as [-> | ->], Hb as [-> | ->]; auto;
      exfalso; apply Hab; left; reflexivity.
  - exfalso.
    assert (Ha : a = 0%nat \/ a = 1%nat) by (apply H; left; reflexivity).
    assert (Hb : b = 0%nat \/ b = 1%nat)
      by (apply H; right; left; reflexivity).
    assert (Hx : x = 0%nat \/ x = 1%nat)
      by (apply H; right; right; left; reflexivity).
    inversion ND as [|? ? Hab ND']; subst.
    inversion ND' as [|? ? Hbx _]; subst.
    cbn in Hab, Hbx.
    destruct Ha as [-> | ->], Hb as [-> | ->], Hx as [-> | ->]; tauto.
Qed.

(** *** Set notifications and set battery on two threads *)

Lemma syscalls_set_light_notifications kernel dev s t g :
  syscalls (snd (exec kernel (set_light_notifications dev s) t g))
  = (syscalls g ++ writer_events kernel (syscalls g) RGB_CONTROL_FILE
                     (led_pattern s (g_battery g) ++ nl))%list.
Proof.
  rewrite exec_set_light_notifications. cbn [snd].
  rewrite exec_handle_speaker_battery_locked. cbn [snd].
  rewrite exec_write_str_syscalls. reflexivity.
Qed.

Lemma syscalls_set_light_battery kernel dev s t g :
  syscalls (snd (exec kernel (set_light_battery dev s) t g))
  = (syscalls g ++ writer_events kernel (syscalls g) RGB_CONTROL_FILE
                     (led_pattern (g_notification g) s ++ nl))%list.
Proof.
  rewrite exec_set_light_battery. cbn [snd].
  rewrite exec_handle_speaker_battery_locked. cbn [snd].
  rewrite exec_write_str_syscalls. reflexivity.
Qed.

Lemma exec_set_light_notifications_frame kernel dev s t g :
  g_notification (snd (exec kernel (set_light_notifications dev s) t g)) = s
  /\ g_battery (snd (exec kernel (set_light_notifications dev s) t g))
     = g_battery g.
Proof.
  rewrite exec_set_light_notifications. cbn [snd].
  destruct (exec_handle_frame kernel dev t (set_g_notification s g))
    as [Hn Hb].
  rewrite Hn, Hb. split; reflexivity.
Qed.

Lemma well_locked_notifications_and_battery devN devB sN sB tN tB g :
  well_locked (notifications_and_battery devN devB sN sB tN tB g).
Proof.
  split; [discriminate|]. intros i th. cbn.
  destruct i as [|[|i]]; cbn; [| |destruct i; discriminate].
  - intros [= <-]. left.
    apply (guarded_call_set_light fn_set_light_notifications).
  - intros [= <-]. left.
    apply (guarded_call_set_light fn_set_light_battery).
Qed.

Lemma pending_notifications_and_battery devN devB sN sB tN tB g i :
  pending (threads (notifications_and_battery devN devB sN sB tN tB g)) i
  <-> i = 0%nat \/ i = 1%nat.
Proof.
  unfold pending. cbn. split.
  - intros (th & Hth & _). destruct i as [|[|i]]; auto.
    destruct i; discriminate.
  - intros [-> | ->]; cbn; eexists; (split; [reflexivity|]).
    + apply (guarded_unfinished tN),
        (guarded_call_set_light fn_set_light_notifications).
    + apply (guarded_unfinished tB),
        (guarded_call_set_light fn_set_light_battery).
Qed.

(** However the two threads have run, letting the pending ones finish one
    after the other gives what one of the two calls, run alone to its end,
    followed by the other gives. *)
Lemma two_setters_serial kernel devN devB sN sB tN tB g sched c order' :
  run_schedule kernel sched
    (notifications_and_battery devN devB sN sB tN tB g) = Some c ->
  serial_order c order' ->
  let rN := exec kernel (set_light_notifications devN sN) tN g in
  let rNB := exec kernel (set_light_battery devB sB) tB (snd rN) in
  let rB := exec kernel (set_light_battery devB sB) tB g in
  let rBN := exec kernel (set_light_notifications devN sN) tN (snd rB) in
  serial kernel order' (threads c) (shared c)
  = ([mk_thread (snd (fst rN)) (Ret 0); mk_thread (snd (fst rNB)) (Ret 0)],
     snd rNB)
  \/ serial kernel order' (threads c) (shared c)
     = ([mk_thread (snd (fst rBN)) (Ret 0); mk_thread (snd (fst rB)) (Ret 0)],
        snd rBN).
Proof.
  intros R O'. cbv zeta.
  assert (ZN : forall t g0,
             fst (fst (exec kernel (set_light_notifications devN sN) t g0))
             = 0)
    by (intros; rewrite exec_set_light_notifications; reflexivity).
  assert (ZB : forall t g0,
             fst (fst (exec kernel (set_light_battery devB sB) t g0)) = 0)
    by (intros; rewrite exec_set_light_battery; reflexivity).
  destruct (serialization kernel sched _ c order'
              (well_locked_notifications_and_battery _ _ _ _ _ _ _) R O')
    as (order & O & <-).
  destruct (serial_order_two
              (notifications_and_battery devN devB sN sB tN tB g) eq_refl
              (pending_notifications_and_battery devN devB sN sB tN tB g)
              order O) as [-> | ->]; [left|right];
    cbn [serial run_to_end notifications_and_battery threads shared
           nth_error set_thread fst snd th_prog th_tls];
    rewrite !ZN, !ZB; reflexivity.
Qed.

(** C10: set notifications and set battery called on two threads, in any
    interleaving of their commands.  At every moment the system calls made
    so far are the beginning of what one of the calls, run alone from lock
    to unlock, followed by the other makes: two whole open, write, close
    sequences on the RGB control file, never a mixture of the two.  When
    both calls have returned, the statics, the calls made and the values
    returned are those of the two calls run one after the other, and the
    lock is free. *)
Theorem notifications_and_battery_serialized (kernel : kernel_t)
    (devN devB : option nat) (sN sB : light_state_t) (tN tB : tls)
    (g : globals) (sched : list nat) (c : config) :
  run_schedule kernel sched
    (notifications_and_battery devN devB sN sB tN tB g) = Some c ->
  let rN := exec kernel (set_light_notifications devN sN) tN g in
  let rNB := exec kernel (set_light_battery devB sB) tB (snd rN) in
  let rB := exec kernel (set_light_battery devB sB) tB g in
  let rBN := exec kernel (set_light_notifications devN sN) tN (snd rB) in
  let block h n b :=
    writer_events kernel h RGB_CONTROL_FILE (led_pattern n b ++ nl) in
  let first_N := block (syscalls g) sN (g_battery g) in
  let first_B := block (syscalls g) (g_notification g) sB in
  (syscalls (snd rNB)
   = (syscalls g ++ first_N ++ block (syscalls g ++ first_N) sN sB)%list
   /\ syscalls (snd rBN)
      = (syscalls g ++ first_B ++ block (syscalls g ++ first_B) sN sB)%list)
  /\ ((extends (syscalls (shared c)) (syscalls (snd rNB))
       /\ (all_returned c = true ->
           g_lock c = None
           /\ shared c = snd rNB
           /\ threads c = [mk_thread (snd (fst rN)) (Ret 0);
                           mk_thread (snd (fst rNB)) (Ret 0)]))
      \/ (extends (syscalls (shared c)) (syscalls (snd rBN))
          /\ (all_returned c = true ->
              g_lock c = None
              /\ shared c = snd rBN
              /\ threads c = [mk_thread (snd (fst rBN)) (Ret 0);
                              mk_thread (snd (fst rB)) (Ret 0)]))).
Proof.
  intros R rN rNB rB rBN block first_N first_B.
  pose proof (run_schedule_well_locked kernel sched _ c
                (well_locked_notifications_and_battery _ _ _ _ _ _ _) R)
    as WL.
  split.
  - unfold rNB, rBN, rN, rB, first_N, first_B, block.
    repeat (rewrite syscalls_set_light_battery
            || rewrite syscalls_set_light_notifications).
    destruct (exec_set_light_notifications_frame kernel devN sN tN g)
      as [-> _].
    destruct (exec_set_light_battery_frame kernel devB sB tB g) as [_ ->].
    rewrite <- !app_assoc. split; reflexivity.
  - destruct (all_returned c) eqn:A.
    + pose proof (two_setters_serial kernel devN devB sN sB tN tB g sched c
                    [] R (serial_order_all_returned c WL A)) as S.
      cbn [serial] in S. fold rN rNB rB rBN in S.
      destruct S as [S|S]; [left|right]; injection S as Hths Hsh;
        (split; [rewrite Hsh; apply extends_refl|]);
        intros _; (split; [exact (all_returned_unlocked c WL A)|]); auto.
    + pose proof (two_setters_serial kernel devN devB sN sB tN tB g sched c
                    (completion_order c) R (completion_order_serial c WL))
        as S.
      fold rN rNB rB rBN in S.
      pose proof (serial_extends kernel (completion_order c) (threads c)
                    (shared c) (fun i th => well_locked_phase c i th WL))
        as X.
      destruct S as [S|S]; [left|right]; rewrite S in X;
        (split; [exact X|discriminate]).
Qed.

Lemma notifications_and_battery_serialized_witness :
  exists c,
    run_schedule kernel_ok schedule_interleaved
      (notifications_and_battery None None lit_timed lit_steady tls0 tls0
         globals0) = Some c
    /\ all_returned c = true
    /\ syscalls (shared c)
       = [(Open RGB_CONTROL_FILE O_RDWR, 3);
          (Write 3 ("ffffff 100 200 300 300" ++ nl) 23, 23);
          (Close 3, 0);
          (Open RGB_CONTROL_FILE O_RDWR, 3);
          (Write 3 ("ffffff 100 200 300 300" ++ nl) 23, 23);
          (Close 3, 0)].
Proof.
  eexists. split; [vm_compute; reflexivity|]. split; [reflexivity|].
  match goal with
  | |- syscalls (shared ?c) = _ =>
      destruct (notifications_and_battery_serialized kernel_ok None None
                  lit_timed lit_steady tls0 tls0 globals0
                  schedule_interleaved c eq_refl)
        as [_ [[_ H]|[_ H]]];
      destruct (H eq_refl) as (_ & Hs & _)
  end.
  - rewrite Hs. reflexivity.
  - apply (f_equal syscalls) in Hs. vm_compute in Hs. discriminate Hs.
Defined.

(** *** One thread alone *)

(** A thread that holds the lock and runs alone reaches its return, in as
    many steps as it has commands left, with the outcome of [exec]. *)
Lemma exec_is_a_run_inside kernel p :
  forall t g,
    inside p ->
    exists sched,
      run_schedule kernel sched (mk_config (Some 0%nat) [mk_thread t p] g)
      = Some (mk_config None
                [mk_thread (snd (fst (exec kernel p t g)))
                   (Ret (fst (fst (exec kernel p t g))))]
                (snd (exec kernel p t g))).
Proof.
  induction p as [a|k IH|k IH|k IH|c k IH|k IH|l k IH|C f k IH];
    intros t g H; cbn in H; try contradiction.
  - destruct k; try contradiction. exists [0%nat]. reflexivity.
  - destruct (IH (fst (kernel (syscalls g) c))
                (assign_errno (snd (kernel (syscalls g) c)) t)
                (record_event (c, fst (kernel (syscalls g) c)) g)
                (H _)) as (sched & R).
    exists (0%nat :: sched). exact R.
  - destruct (IH (errno t) t g (H _)) as (sched & R).
    exists (0%nat :: sched). exact R.
  - destruct (IH (add_log l t) g H) as (sched & R).
    exists (0%nat :: sched). exact R.
  - destruct H as [_ H].
    destruct (IH (fst (f g)) t (snd (f g)) (H _)) as (sched & R).
    exists (0%nat :: sched). exact R.
Qed.

(** The run of [exec] is a run of the steps: a thread that has not taken
    the lock, alone and with the lock free, takes it, releases it and
    returns, with the outcome of [exec]. *)
Lemma exec_is_a_run kernel p :
  forall t g,
    guarded p ->
    exists sched,
      run_schedule kernel sched (mk_config None [mk_thread t p] g)
      = Some (mk_config None
                [mk_thread (snd (fst (exec kernel p t g)))
                   (Ret (fst (fst (exec kernel p t g))))]
                (snd (exec kernel p t g))).
Proof.
  induction p as [a|k IH|k IH|k IH|c k IH|k IH|l k IH|C f k IH];
    intros t g H; cbn in H; try contradiction.
  - destruct (exec_is_a_run_inside kernel k t g H) as (sched & R).
    exists (0%nat :: sched). exact R.
  - destruct (IH (errno t) t g (H _)) as (sched & R).
    exists (0%nat :: sched). exact R.
  - destruct (IH (add_log l t) g H) as (sched & R).
    exists (0%nat :: sched). exact R.
Qed.

(** Each setter, called on a thread of its own while no other thread
    runs, returns, and [exec] gives its outcome. *)
Corollary setter_alone_returns kernel f dev s t g :
  exists sched,
    run_schedule kernel sched
      (mk_config None [mk_thread t (call_set_light f dev s)] g)
    = Some (mk_config None
              [mk_thread (snd (fst (exec kernel (call_set_light f dev s) t g)))
                 (Ret (result_of kernel (call_set_light f dev s) t g))]
              (snd (exec kernel (call_set_light f dev s) t g))).
Proof. apply exec_is_a_run, guarded_call_set_light. Qed.

(** * Further properties *)

(** ** Luminance *)

Lemma channel_range (x : Z) : 0 <= Z.land x 0xff <= 255.
Proof.
  change (Z.land x 0xff) with (Z.land x (Z.ones 8)).
  rewrite Z.land_ones by lia. change (2 ^ 8) with 256.
  pose proof (Z.mod_pos_bound x 256 eq_refl). lia.
Qed.

Lemma luma_range (c : Z) : 0 <= luma c <= 255.
Proof.
  unfold luma, red, green, blue.
  pose proof (channel_range (Z.shiftr c 16)).
  pose proof (channel_range (Z.shiftr c 8)).
  pose proof (channel_range c).
  rewrite Z.shiftr_div_pow2 by lia. change (2 ^ 8) with 256. split.
  - apply Z.div_pos; lia.
  - apply Z.div_le_upper_bound; lia.
Qed.

(** X1: the brightness the backlight setter computes lies between 0 and
    255 for every colour, whatever its alpha channel and whatever value
    the 32-bit field holds, and a state that is not lit has brightness
    0. *)
Theorem rgb_to_brightness_range (s : light_state_t) :
  0 <= rgb_to_brightness s <= 255
  /\ (is_lit s = 0 -> rgb_to_brightness s = 0).
Proof.
  split.
  - rewrite rgb_to_brightness_luma. apply luma_range.
  - unfold is_lit, rgb_to_brightness. intros ->. reflexivity.
Qed.

Lemma channels_of_argb (a r g b : Z) :
  0 <= r <= 255 -> 0 <= g <= 255 -> 0 <= b <= 255 ->
  red (argb a r g b) = r /\ green (argb a r g b) = g
  /\ blue (argb a r g b) = b.
Proof.
  intros Hr Hg Hb. unfold red, green, blue, argb.
  change 0xff with (Z.ones 8).
  rewrite !Z.land_ones, !Z.shiftr_div_pow2 by lia.
  change (2 ^ 24) with 16777216. change (2 ^ 16) with 65536.
  change (2 ^ 8) with 256.
  repeat split.
  - assert (E : (a * 16777216 + r * 65536 + g * 256 + b) / 65536
                = a * 256 + r)
      by (symmetry; apply (Z.div_unique _ _ _ (g * 256 + b)); lia).
    rewrite E. symmetry. apply (Z.mod_unique _ _ a); lia.
  - assert (E : (a * 16777216 + r * 65536 + g * 256 + b) / 256
                = a * 65536 + r * 256 + g)
      by (symmetry; apply (Z.div_unique _ _ _ b); lia).
    rewrite E. symmetry. apply (Z.mod_unique _ _ (a * 256 + r)); lia.
  - symmetry. apply (Z.mod_unique _ _ (a * 65536 + r * 256 + g)); lia.
Qed.

(** X2: on a colour packed from four channels, the red, green and blue
    ones between 0 and 255, the brightness is the weighted sum of the
    three divided by 256, rounded down, whatever the alpha channel; a grey
    level, with the three channels equal, has itself as brightness. *)
Theorem rgb_to_brightness_of_channels (a r g b mode onMS offMS : Z) :
  0 <= r <= 255 -> 0 <= g <= 255 -> 0 <= b <= 255 ->
  rgb_to_brightness (mk_light_state (argb a r g b) mode onMS offMS)
  = (77 * r + 150 * g + 29 * b) / 256
  /\ (r = g -> g = b ->
      rgb_to_brightness (mk_light_state (argb a r g b) mode onMS offMS) = b).
Proof.
  intros Hr Hg Hb.
  destruct (channels_of_argb a r g b Hr Hg Hb) as (Er & Eg & Eb).
  assert (E : rgb_to_brightness (mk_light_state (argb a r g b) mode onMS offMS)
              = (77 * r + 150 * g + 29 * b) / 256).
  { rewrite rgb_to_brightness_luma. cbn [color]. unfold luma.
    rewrite Er, Eg, Eb, Z.shiftr_div_pow2 by lia. reflexivity. }
  split; [exact E|].
  intros -> ->. rewrite E.
  replace (77 * b + 150 * b + 29 * b) with (b * 256) by lia.
  apply Z.div_mul. lia.
Qed.

Lemma rgb_to_brightness_of_channels_witness :
  rgb_to_brightness (mk_light_state (argb 255 128 128 128) 0 0 0) = 128
  /\ rgb_to_brightness (mk_light_state (argb 0 255 0 0) 0 0 0)
     = (77 * 255 + 150 * 0 + 29 * 0) / 256.
Proof.
  split.
  - exact (proj2 (rgb_to_brightness_of_channels 255 128 128 128 0 0 0
                    ltac:(lia) ltac:(lia) ltac:(lia)) eq_refl eq_refl).
  - exact (proj1 (rgb_to_brightness_of_channels 0 255 0 0 0 0 0
                    ltac:(lia) ltac:(lia) ltac:(lia))).
Defined.

Lemma fmt_d_short (n : nat) :
  (n < 256)%nat -> (String.length (fmt_d (Z.of_nat n)) <= 3)%nat.
Proof.
  intros H.
  assert (A : forallb (fun k => String.length (fmt_d (Z.of_nat k)) <=? 3)%nat
                (seq 0 256) = true) by (vm_compute; reflexivity).
  rewrite forallb_forall in A. apply Nat.leb_le, A, in_seq. lia.
Qed.

(** X3: the line the backlight setter prints into its 20-byte buffer is
    at most four characters long, newline included, for every light
    state, so the [sprintf] of [write_int] stays within the buffer and
    the count handed to write(2) is at most 4. *)
Theorem backlight_buffer_fits (kernel : kernel_t) (dev : option nat)
    (s : light_state_t) (t : tls) (g : globals) :
  let buffer := fmt_d (rgb_to_brightness s) ++ nl in
  (String.length buffer <= 4)%nat
  /\ (String.length buffer + 1 <= 20)%nat
  /\ forall fd buf count r,
       In (Write fd buf count, r)
         (events_of kernel (set_light_backlight dev s) t g) ->
       buf = buffer /\ count = Z.of_nat (String.length buffer) /\ count <= 4.
Proof.
  intros buffer.
  assert (L : (String.length buffer <= 4)%nat).
  { unfold buffer. pose proof (luma_range (color s)) as R.
    rewrite <- rgb_to_brightness_luma in R.
    rewrite <- (Z2Nat.id (rgb_to_brightness s)) by lia.
    pose proof (fmt_d_short (Z.to_nat (rgb_to_brightness s)) ltac:(lia)) as F.
    revert F. generalize (fmt_d (Z.of_nat (Z.to_nat (rgb_to_brightness s)))).
    intros x F. assert (String.length (x ++ nl) = S (String.length x)).
    { induction x; cbn; auto. cbn in F. rewrite IHx; auto. lia. }
    lia. }
  split; [exact L|]. split; [lia|].
  intros fd buf count r H.
  assert (E : events_of kernel (set_light_backlight dev s) t g
              = writer_events kernel (syscalls g) LCD_FILE buffer).
  { unfold events_of. rewrite exec_set_light_backlight. cbn [snd].
    rewrite exec_write_int_syscalls. apply skipn_length_app. }
  rewrite E in H. clear E. clearbody buffer.
  unfold writer_events in H. cbn [snd] in H.
  destruct (0 <=? fst (kernel (syscalls g) (Open LCD_FILE O_RDWR))).
  - destruct H as [H|[H|[H|[]]]]; try discriminate H.
    injection H as _ E2 E3 _. subst buf count. repeat split. lia.
  - destruct H as [H|[]]. discriminate H.
Qed.

(** ** The writers: what a call makes, logs and returns *)

Lemma events_of_call kernel c t g :
  events_of kernel (call_prog c) t g
  = writer_events kernel (syscalls g) (setter_file (call_fn c))
      (setter_buffer (call_fn c) (call_state c) g).
Proof.
  destruct c as [f dev s]. unfold call_prog. cbn [call_fn call_dev call_state].
  destruct f; cbn [call_set_light setter_file setter_buffer].
  - unfold events_of. rewrite exec_set_light_backlight. cbn [snd].
    rewrite exec_write_int_syscalls. apply skipn_length_app.
  - apply events_of_set_light_battery.
  - apply events_of_set_light_notifications.
Qed.

Lemma logcat_assign_errno e t : logcat (assign_errno e t) = logcat t.
Proof. destruct e; reflexivity. Qed.

(** What [write_str] adds to the log and does to the two flags. *)
Lemma exec_write_str_log kernel path v t g :
  let r := exec kernel (write_str path v) t g in
  let warns := negb (opens kernel (syscalls g) path)
               && (write_str_already_warned g =? 0) in
  logcat (snd (fst r))
  = (logcat t ++
     if warns
     then [mk_logline ANDROID_LOG_ERROR LOG_TAG write_str_fmt [ArgStr path]]
     else [])%list
  /\ write_str_already_warned (snd r)
     = (if warns then 1 else write_str_already_warned g)
  /\ write_int_already_warned (snd r) = write_int_already_warned g.
Proof.
  unfold opens, write_str. cbn.
  destruct (0 <=? fst (kernel (syscalls g) (Open path O_RDWR))); cbn.
  - match goal with |- context [if ?c then _ else _] => destruct c end; cbn;
      rewrite !logcat_assign_errno, app_nil_r; auto.
  - destruct (write_str_already_warned g =? 0); cbn;
      rewrite !logcat_assign_errno, ?app_nil_r; auto.
Qed.

Lemma exec_write_int_log kernel path v t g :
  let r := exec kernel (write_int path v) t g in
  let warns := negb (opens kernel (syscalls g) path)
               && (write_int_already_warned g =? 0) in
  logcat (snd (fst r))
  = (logcat t ++
     if warns
     then [mk_logline ANDROID_LOG_ERROR LOG_TAG write_int_fmt [ArgStr path]]
     else [])%list
  /\ write_int_already_warned (snd r)
     = (if warns then 1 else write_int_already_warned g)
  /\ write_str_already_warned (snd r) = write_str_already_warned g.
Proof.
  unfold opens, write_int. cbn.
  destruct (0 <=? fst (kernel (syscalls g) (Open path O_RDWR))); cbn.
  - match goal with |- context [if ?c then _ else _] => destruct c end; cbn;
      rewrite !logcat_assign_errno, app_nil_r; auto.
  - destruct (write_int_already_warned g =? 0); cbn;
      rewrite !logcat_assign_errno, ?app_nil_r; auto.
Qed.

Lemma error_lines_app f l1 l2 :
  error_lines f (l1 ++ l2) = (error_lines f l1 + error_lines f l2)%nat.
Proof. unfold error_lines. rewrite filter_app, length_app. reflexivity. Qed.

(** A call keeps the number of error lines of each writer within its
    budget, and never removes one. *)
Lemma call_warn_budget kernel c t g :
  let r := exec kernel (call_prog c) t g in
  (warn_budget write_int_fmt (write_int_already_warned (snd r))
     (logcat (snd (fst r)))
   <= warn_budget write_int_fmt (write_int_already_warned g) (logcat t))%nat
  /\ (warn_budget write_str_fmt (write_str_already_warned (snd r))
        (logcat (snd (fst r)))
      <= warn_budget write_str_fmt (write_str_already_warned g) (logcat t))%nat
  /\ (error_lines write_int_fmt (logcat t)
      <= error_lines write_int_fmt (logcat (snd (fst r))))%nat
  /\ (error_lines write_str_fmt (logcat t)
      <= error_lines write_str_fmt (logcat (snd (fst r))))%nat.
Proof.
  destruct c as [f dev s]. unfold call_prog. cbn [call_fn call_dev call_state].
  unfold warn_budget. destruct f; cbn [call_set_light].
  - rewrite exec_set_light_backlight. cbn [fst snd].
    destruct (exec_write_int_log kernel LCD_FILE (rgb_to_brightness s) t g)
      as (-> & -> & ->).
    rewrite !error_lines_app.
    destruct (negb (opens kernel (syscalls g) LCD_FILE)); cbn [andb];
      [destruct (write_int_already_warned g =? 0) eqn:W|];
      cbn; rewrite ?W; lia.
  - rewrite exec_set_light_battery. cbn [fst snd].
    rewrite exec_handle_speaker_battery_locked. cbn [fst snd].
    match goal with
    | |- context [exec kernel (write_str ?p ?v) ?t0 ?g0] =>
        destruct (exec_write_str_log kernel p v t0 g0) as (-> & -> & ->)
    end.
    cbn [syscalls set_g_battery write_str_already_warned
           write_int_already_warned g_notification].
    rewrite !error_lines_app.
    assert (D : forall f0, error_lines f0
                  (logcat (if negb (is_lit (g_notification g) =? 0)
                           then add_log (speaker_logline (g_notification g))
                                  (add_log (battery_logline s) t)
                           else add_log (battery_logline s) t))
                = error_lines f0 (logcat t)).
    { intros f0. destruct (negb (is_lit (g_notification g) =? 0));
        cbn [logcat add_log]; rewrite !error_lines_app; cbn; lia. }
    rewrite !D.
    destruct (negb (opens kernel (syscalls g) RGB_CONTROL_FILE)); cbn [andb];
      [destruct (write_str_already_warned g =? 0) eqn:W|];
      cbn; rewrite ?W; lia.
  - rewrite exec_set_light_notifications. cbn [fst snd].
    rewrite exec_handle_speaker_battery_locked. cbn [fst snd].
    match goal with
    | |- context [exec kernel (write_str ?p ?v) ?t0 ?g0] =>
        destruct (exec_write_str_log kernel p v t0 g0) as (-> & -> & ->)
    end.
    cbn [syscalls set_g_notification write_str_already_warned
           write_int_already_warned g_notification].
    rewrite !error_lines_app.
    assert (D : forall f0, error_lines f0
                  (logcat (if negb (is_lit s =? 0)
                           then add_log (speaker_logline s) t
                           else t))
                = error_lines f0 (logcat t)).
    { intros f0. destruct (negb (is_lit s =? 0));
        cbn [logcat add_log]; rewrite ?error_lines_app; cbn; lia. }
    rewrite !D.
    destruct (negb (opens kernel (syscalls g) RGB_CONTROL_FILE)); cbn [andb];
      [destruct (write_str_already_warned g =? 0) eqn:W|];
      cbn; rewrite ?W; lia.
Qed.

Lemma run_calls_warn_budget kernel cs :
  forall t g,
    let r := run_calls kernel cs t g in
    (warn_budget write_int_fmt (write_int_already_warned (snd r))
       (logcat (fst r))
     <= warn_budget write_int_fmt (write_int_already_warned g) (logcat t))%nat
    /\ (warn_budget write_str_fmt (write_str_already_warned (snd r))
          (logcat (fst r))
        <= warn_budget write_str_fmt (write_str_already_warned g)
             (logcat t))%nat
    /\ (error_lines write_int_fmt (logcat t)
        <= error_lines write_int_fmt (logcat (fst r)))%nat
    /\ (error_lines write_str_fmt (logcat t)
        <= error_lines write_str_fmt (logcat (fst r)))%nat.
Proof.
  induction cs as [|c cs IH]; intros t g; cbn [run_calls fst snd].
  - repeat split; lia.
  - destruct (call_warn_budget kernel c t g) as (A1 & A2 & A3 & A4).
    destruct (IH (snd (fst (exec kernel (call_prog c) t g)))
                (snd (exec kernel (call_prog c) t g)))
      as (B1 & B2 & B3 & B4).
    cbv zeta in *. repeat split; lia.
Qed.

(** X4: over any sequence of setter calls made one after the other, each
    writer logs its open failure at most once: at most one error line of
    [write_int] and at most one of [write_str] are added to the log, and
    none at all by a writer whose [already_warned] is set at the start. *)
Theorem open_failure_logged_once (kernel : kernel_t) (cs : list setter_call)
    (t : tls) (g : globals) :
  let r := run_calls kernel cs t g in
  (error_lines write_int_fmt (logcat (fst r))
   <= error_lines write_int_fmt (logcat t) + 1)%nat
  /\ (error_lines write_str_fmt (logcat (fst r))
      <= error_lines write_str_fmt (logcat t) + 1)%nat
  /\ (write_int_already_warned g <> 0 ->
      error_lines write_int_fmt (logcat (fst r))
      = error_lines write_int_fmt (logcat t))
  /\ (write_str_already_warned g <> 0 ->
      error_lines write_str_fmt (logcat (fst r))
      = error_lines write_str_fmt (logcat t)).
Proof.
  destruct (run_calls_warn_budget kernel cs t g) as (B1 & B2 & B3 & B4).
  cbv zeta in *. unfold warn_budget in *.
  repeat split.
  - destruct (write_int_already_warned (snd (run_calls kernel cs t g)) =? 0),
      (write_int_already_warned g =? 0); lia.
  - destruct (write_str_already_warned (snd (run_calls kernel cs t g)) =? 0),
      (write_str_already_warned g =? 0); lia.
  - intros W. apply Z.eqb_neq in W. rewrite W in B1.
    destruct (write_int_already_warned (snd (run_calls kernel cs t g)) =? 0);
      lia.
  - intros W. apply Z.eqb_neq in W. rewrite W in B2.
    destruct (write_str_already_warned (snd (run_calls kernel cs t g)) =? 0);
      lia.
Qed.

(** What [write_int] returns once its file is open. *)
Lemma write_int_result kernel path v t g buffer :
  buffer = fmt_d v ++ nl ->
  let fd := fst (kernel (syscalls g) (Open path O_RDWR)) in
  let e1 := (Open path O_RDWR, fd) in
  let w := Write fd buffer (Z.of_nat (String.length buffer)) in
  let rw := kernel (syscalls g ++ [e1])%list w in
  let rc := kernel (syscalls g ++ [e1; (w, fst rw)])%list (Close fd) in
  0 <= fd ->
  result_of kernel (write_int path v) t g
  = if fst rw =? -1
    then - errno (assign_errno (snd rc)
                    (assign_errno (snd rw)
                       (assign_errno
                          (snd (kernel (syscalls g) (Open path O_RDWR))) t)))
    else 0.
Proof.
  intros Hb fd e1 w rw rc Hfd. subst rc rw w e1.
  unfold result_of, write_int. rewrite <- Hb. cbn.
  apply Z.leb_le in Hfd. fold fd. rewrite Hfd. cbn.
  rewrite <- app_assoc. cbn [app]. fold fd.
  match goal with
  | |- fst (fst (exec _ (if ?c1 then _ else _) _ _))
       = (if ?c2 then _ else _) => change c2 with c1; destruct c1
  end; reflexivity.
Qed.

(** X5: what set backlight returns once its file is open.  A write(2)
    that returns anything but -1, a short count or 0 included, counts as
    success and gives 0.  When write(2) returns -1 the value returned is
    the negation of [errno] as close(2) leaves it: the error code of the
    write if close(2) assigns none, the error code of close(2) if it
    fails too. *)
Theorem backlight_write_failure (kernel : kernel_t) (dev : option nat)
    (s : light_state_t) (t : tls) (g : globals) :
  let buffer := fmt_d (rgb_to_brightness s) ++ nl in
  let fd := fst (kernel (syscalls g) (Open LCD_FILE O_RDWR)) in
  let e1 := (Open LCD_FILE O_RDWR, fd) in
  let w := Write fd buffer (Z.of_nat (String.length buffer)) in
  let rw := kernel (syscalls g ++ [e1])%list w in
  let rc := kernel (syscalls g ++ [e1; (w, fst rw)])%list (Close fd) in
  0 <= fd ->
  (fst rw <> -1 -> result_of kernel (set_light_backlight dev s) t g = 0)
  /\ (fst rw = -1 -> forall e, snd rc = Some e ->
      result_of kernel (set_light_backlight dev s) t g = - e)
  /\ (fst rw = -1 -> snd rc = None -> forall e, snd rw = Some e ->
      result_of kernel (set_light_backlight dev s) t g = - e).
Proof.
  intros buffer fd e1 w rw rc Hfd.
  assert (E : result_of kernel (set_light_backlight dev s) t g
              = result_of kernel (write_int LCD_FILE (rgb_to_brightness s))
                  t g).
  { unfold result_of. rewrite exec_set_light_backlight. reflexivity. }
  rewrite E.
  rewrite (write_int_result kernel LCD_FILE (rgb_to_brightness s) t g buffer
             eq_refl Hfd).
  fold fd. fold e1. fold w. fold rw. fold rc.
  repeat split.
  - intros H. apply Z.eqb_neq in H. rewrite H. reflexivity.
  - intros H e Hc. rewrite H, Hc. reflexivity.
  - intros H Hc e Hw. rewrite H, Hc, Hw. reflexivity.
Qed.

Lemma backlight_write_failure_witness :
  0 <= fst (kernel_write_fails (syscalls globals0) (Open LCD_FILE O_RDWR))
  /\ result_of kernel_write_fails (set_light_backlight None lit_timed) tls0
       globals0
     = - 5.
Proof.
  split; [discriminate|].
  exact (proj1 (proj2 (backlight_write_failure kernel_write_fails None
                         lit_timed tls0 globals0 ltac:(discriminate)))
           eq_refl 5 eq_refl).
Defined.

(** ** Descriptors and files *)

Lemma open_fds_writer_events kernel h path buf :
  open_fds (writer_events kernel h path buf) = [].
Proof.
  unfold open_fds, writer_events. cbn.
  destruct (0 <=? fst (kernel h (Open path O_RDWR))) eqn:E; cbn;
    rewrite ?E; cbn; rewrite ?Z.eqb_refl; reflexivity.
Qed.

Lemma opened_paths_writer_events kernel h path buf :
  opened_paths (writer_events kernel h path buf) = [path].
Proof.
  unfold opened_paths, writer_events. cbn.
  destruct (0 <=? fst (kernel h (Open path O_RDWR))); reflexivity.
Qed.

Lemma write_calls_other_file kernel h path path' buf :
  String.eqb path path' = false ->
  write_calls path' (writer_events kernel h path buf) = [].
Proof.
  intros N. unfold write_calls, writer_events. cbn.
  destruct (0 <=? fst (kernel h (Open path O_RDWR))) eqn:E; cbn;
    rewrite ?E; cbn; rewrite ?Z.eqb_refl; cbn; rewrite ?N; reflexivity.
Qed.

(** X6: no setter leaks a descriptor.  Whatever open(2), write(2) and
    close(2) return, the calls a setter makes leave no descriptor open:
    a descriptor that open(2) returned is handed to close(2), also when
    the write failed. *)
Theorem setters_leak_no_descriptor (kernel : kernel_t) (c : setter_call)
    (t : tls) (g : globals) :
  open_fds (events_of kernel (call_prog c) t g) = []
  /\ forall path flags fd,
       In (Open path flags, fd) (events_of kernel (call_prog c) t g) ->
       0 <= fd ->
       exists r, In (Close fd, r) (events_of kernel (call_prog c) t g).
Proof.
  rewrite events_of_call. split; [apply open_fds_writer_events|].
  intros path flags fd. unfold writer_events. cbn [snd].
  destruct (0 <=? fst (kernel (syscalls g)
                         (Open (setter_file (call_fn c)) O_RDWR))) eqn:E.
  - intros [H|[H|[H|[]]]] _; try discriminate H.
    injection H as _ _ <-. eexists. right. right. left. reflexivity.
  - intros [H|[]] Hfd. injection H as _ _ <-.
    apply Z.leb_le in Hfd. congruence.
Qed.

Lemma exec_write_int_frame kernel path v t g :
  g_notification (snd (exec kernel (write_int path v) t g)) = g_notification g
  /\ g_battery (snd (exec kernel (write_int path v) t g)) = g_battery g.
Proof.
  unfold write_int. cbn.
  destruct (0 <=? fst (kernel (syscalls g) (Open path O_RDWR))); cbn.
  - match goal with |- context [if ?c then _ else _] => destruct c end; cbn;
      auto.
  - destruct (write_int_already_warned g =? 0); cbn; auto.
Qed.

(** X7: each setter keeps to its own control file.  A call makes exactly
    one open(2), of the backlight file for set backlight and of the RGB
    control file for set battery and set notifications, and hands
    write(2) nothing on any other file; set backlight leaves the two
    stored snapshots as they are. *)
Theorem setters_keep_to_their_file (kernel : kernel_t) (c : setter_call)
    (t : tls) (g : globals) :
  opened_paths (events_of kernel (call_prog c) t g)
  = [setter_file (call_fn c)]
  /\ (forall path, path <> setter_file (call_fn c) ->
      write_calls path (events_of kernel (call_prog c) t g) = [])
  /\ LCD_FILE <> RGB_CONTROL_FILE
  /\ (call_fn c = fn_set_light_backlight ->
      g_notification (snd (exec kernel (call_prog c) t g)) = g_notification g
      /\ g_battery (snd (exec kernel (call_prog c) t g)) = g_battery g).
Proof.
  rewrite events_of_call.
  split; [apply opened_paths_writer_events|].
  split; [|split; [discriminate|]].
  - intros path N. apply write_calls_other_file.
    apply String.eqb_neq. congruence.
  - destruct c as [f dev s]. unfold call_prog.
    cbn [call_fn call_dev call_state]. intros ->. cbn [call_set_light].
    rewrite exec_set_light_backlight. cbn [snd].
    apply exec_write_int_frame.
Qed.

Lemma led_pattern_prefix (n b : light_state_t) :
  substring 0 7 (led_pattern n b ++ nl) = "ffffff "
  \/ substring 0 7 (led_pattern n b ++ nl) = "FFFFFF "
  \/ substring 0 7 (led_pattern n b ++ nl) = "000000 ".
Proof.
  unfold led_pattern. destruct (Z.eqb_spec (is_lit n) 0) as [E|N]; cbn [negb].
  - destruct (is_lit b =? 0); cbn [negb]; [right; right|right; left];
      reflexivity.
  - left. rewrite (blink_pattern_lit n N).
    match goal with
    | |- substring 0 7 ((_ ++ ?x) ++ nl) = _ => generalize x
    end.
    intros x. destruct x; reflexivity.
Qed.

(** X8: the colour field of every line written to the RGB control file.
    Whatever the states given and stored, a line that set battery or set
    notifications hands to write(2) begins with one of the six-digit
    colours [ffffff], [FFFFFF] and [000000] followed by a space: the
    space-padded ["     0"] that ["%6x"] prints for an unlit colour is never
    written. *)
Theorem led_line_colour_field (kernel : kernel_t) (c : setter_call)
    (t : tls) (g : globals) (buf : string) :
  call_fn c <> fn_set_light_backlight ->
  In buf (write_calls RGB_CONTROL_FILE (events_of kernel (call_prog c) t g)) ->
  (substring 0 7 buf = "ffffff "
   \/ substring 0 7 buf = "FFFFFF "
   \/ substring 0 7 buf = "000000 ")
  /\ substring 0 7 (blink_pattern dark ++ nl) = "     0 ".
Proof.
  intros Hf Hin. split; [|reflexivity].
  rewrite events_of_call in Hin.
  destruct c as [f dev s]. cbn [call_fn call_state] in *.
  destruct f; [contradiction| |]; cbn [setter_file setter_buffer] in Hin;
    rewrite write_calls_writer_events in Hin;
    destruct (0 <=? fst (kernel (syscalls g) (Open RGB_CONTROL_FILE O_RDWR)));
    try contradiction; destruct Hin as [<-|[]]; apply led_pattern_prefix.
Qed.

Lemma led_line_colour_field_witness :
  In ("FFFFFF 1 0 0 0" ++ nl)
    (write_calls RGB_CONTROL_FILE
       (events_of kernel_ok
          (call_prog (mk_call fn_set_light_battery None lit_steady))
          tls0 globals0))
  /\ substring 0 7 ("FFFFFF 1 0 0 0" ++ nl) = "FFFFFF ".
Proof.
  assert (H : In ("FFFFFF 1 0 0 0" ++ nl)
                (write_calls RGB_CONTROL_FILE
                   (events_of kernel_ok
                      (call_prog (mk_call fn_set_light_battery None
                                    lit_steady))
                      tls0 globals0)))
    by (left; reflexivity).
  split; [exact H|].
  destruct (proj1 (led_line_colour_field kernel_ok
                     (mk_call fn_set_light_battery None lit_steady)
                     tls0 globals0 _ ltac:(discriminate) H))
    as [E|[E|E]]; [discriminate E|exact E|discriminate E].
Defined.

(** ** Handles *)

Lemma name_of_selects (f : set_light_fn) :
  (if strcmp LIGHT_ID_BACKLIGHT (name_of f) =? 0
   then Some fn_set_light_backlight
   else if strcmp LIGHT_ID_BATTERY (name_of f) =? 0
        then Some fn_set_light_battery
   else if strcmp LIGHT_ID_NOTIFICATIONS (name_of f) =? 0
        then Some fn_set_light_notifications
   else None) = Some f.
Proof. destruct f; reflexivity. Qed.

(** X9: opening a light touches nothing but the heap and the once-flag.
    For every name, recognized or not, [open_lights] makes no system
    call, logs nothing, leaves [errno], the two snapshots and the two
    warning flags as they are, and leaves every cell already allocated as
    it is, adding at most one cell at the end of the heap. *)
Theorem open_lights_touches_only_heap (kernel : kernel_t) (module_ : Z)
    (name : string) (device : option nat) (t : tls) (g : globals) :
  let r := exec kernel (open_lights module_ name device) t g in
  snd (fst r) = t
  /\ syscalls (snd r) = syscalls g
  /\ g_notification (snd r) = g_notification g
  /\ g_battery (snd r) = g_battery g
  /\ write_int_already_warned (snd r) = write_int_already_warned g
  /\ write_str_already_warned (snd r) = write_str_already_warned g
  /\ exists cells,
       heap (snd r) = (heap g ++ cells)%list /\ (length cells <= 1)%nat.
Proof.
  destruct (if strcmp LIGHT_ID_BACKLIGHT name =? 0
            then Some fn_set_light_backlight
            else if strcmp LIGHT_ID_BATTERY name =? 0
                 then Some fn_set_light_battery
            else if strcmp LIGHT_ID_NOTIFICATIONS name =? 0
                 then Some fn_set_light_notifications
            else None) as [f|] eqn:H.
  - rewrite (exec_open_lights_found kernel module_ name device t g f H).
    cbn. repeat split. eexists. split; [reflexivity|]. cbn. lia.
  - unfold open_lights. rewrite H. cbn. repeat split.
    exists []. split; [symmetry; apply app_nil_r|]. cbn. lia.
Qed.

(** X10: handles are independent.  Two lights opened one after the other
    get two different handles, and the second [open_lights] leaves the
    first handle bound to its own setter and module. *)
Theorem open_lights_twice (kernel : kernel_t) (m1 m2 : Z)
    (f1 f2 : set_light_fn) (d1 d2 : option nat) (t : tls) (g : globals) :
  let r1 := exec kernel (open_lights m1 (name_of f1) d1) t g in
  let r2 := exec kernel (open_lights m2 (name_of f2) d2)
              (snd (fst r1)) (snd r1) in
  let handle m f :=
    Live (mk_light_device
            (mk_hw_device HARDWARE_DEVICE_TAG 0 m (Some fn_close_lights))
            (Some f)) in
  fst (fst r1) = (0, Some (length (heap g)))
  /\ fst (fst r2) = (0, Some (S (length (heap g))))
  /\ nth_error (heap (snd r2)) (length (heap g)) = Some (handle m1 f1)
  /\ nth_error (heap (snd r2)) (S (length (heap g))) = Some (handle m2 f2).
Proof.
  cbv zeta.
  rewrite (exec_open_lights_found kernel m1 (name_of f1) d1 t g f1
             (name_of_selects f1)).
  cbn [fst snd].
  rewrite (exec_open_lights_found kernel m2 (name_of f2) d2 _ _ f2
             (name_of_selects f2)).
  cbn [fst snd heap set_heap set_g_init].
  rewrite length_app. cbn [length]. rewrite Nat.add_1_r.
  repeat split.
  - rewrite nth_error_app1 by (rewrite length_app; cbn; lia).
    apply nth_error_last.
  - replace (S (length (heap g)))
      with (length (heap g ++
                    [Live (mk_light_device
                             (mk_hw_device HARDWARE_DEVICE_TAG 0 m1
                                (Some fn_close_lights)) (Some f1))])%list)
      by (rewrite length_app; cbn; lia).
    apply nth_error_last.
Qed.

(** X11: open and close.  Closing the handle that [open_lights] returned
    frees its cell and no other, makes no system call and returns 0;
    closing a null handle returns 0 and changes nothing. *)
Theorem open_then_close (kernel : kernel_t) (module_ : Z)
    (f : set_light_fn) (device : option nat) (t : tls) (g : globals) :
  let r1 := exec kernel (open_lights module_ (name_of f) device) t g in
  let r2 := exec kernel (close_lights (snd (fst (fst r1))))
              (snd (fst r1)) (snd r1) in
  fst (fst r2) = 0
  /\ snd (fst r2) = t
  /\ heap (snd r2) = (heap g ++ [Freed])%list
  /\ syscalls (snd r2) = syscalls g
  /\ exec kernel (close_lights None) t g = (0, t, g).
Proof.
  cbv zeta.
  rewrite (exec_open_lights_found kernel module_ (name_of f) device t g f
             (name_of_selects f)).
  cbn. rewrite update_cell_last. repeat split.
Qed.

(** ** The two LED setters in either order *)

(** X12: set notifications and set battery, called one after the other
    in either order, leave the same two snapshots, and the second call
    writes the same line in both orders: the pattern chosen from the two
    states given. *)
Theorem led_setters_in_either_order (kernel : kernel_t)
    (devN devB : option nat) (sN sB : light_state_t) (t : tls)
    (g : globals) :
  let rN := exec kernel (set_light_notifications devN sN) t g in
  let rNB := exec kernel (set_light_battery devB sB) (snd (fst rN)) (snd rN) in
  let rB := exec kernel (set_light_battery devB sB) t g in
  let rBN := exec kernel (set_light_notifications devN sN)
               (snd (fst rB)) (snd rB) in
  (g_notification (snd rNB) = sN /\ g_battery (snd rNB) = sB)
  /\ (g_notification (snd rBN) = sN /\ g_battery (snd rBN) = sB)
  /\ events_of kernel (set_light_battery devB sB) (snd (fst rN)) (snd rN)
     = writer_events kernel (syscalls (snd rN)) RGB_CONTROL_FILE
         (led_pattern sN sB ++ nl)
  /\ events_of kernel (set_light_notifications devN sN)
       (snd (fst rB)) (snd rB)
     = writer_events kernel (syscalls (snd rB)) RGB_CONTROL_FILE
         (led_pattern sN sB ++ nl).
Proof.
  cbv zeta.
  destruct (exec_set_light_notifications_frame kernel devN sN t g)
    as [N1 N2].
  destruct (exec_set_light_battery_frame kernel devB sB t g) as [B1 B2].
  split; [|split; [|split]].
  - destruct (exec_set_light_battery_frame kernel devB sB
                (snd (fst (exec kernel (set_light_notifications devN sN) t g)))
                (snd (exec kernel (set_light_notifications devN sN) t g)))
      as [-> ->].
    auto.
  - destruct (exec_set_light_notifications_frame kernel devN sN
                (snd (fst (exec kernel (set_light_battery devB sB) t g)))
                (snd (exec kernel (set_light_battery devB sB) t g)))
      as [-> ->].
    auto.
  - rewrite events_of_set_light_battery, N1. reflexivity.
  - rewrite events_of_set_light_notifications, B2. reflexivity.
Qed.

(** ** Any number of threads in the setters *)

Lemma setters_config_thread calls g i th :
  nth_error (threads (setters_config calls g)) i = Some th ->
  exists c, th = mk_thread (snd c) (call_prog (fst c)).
Proof.
  cbn [setters_config threads]. rewrite nth_error_map.
  destruct (nth_error calls i) as [c|]; [|discriminate].
  intros [= <-]. exists c. reflexivity.
Qed.

Lemma guarded_call_prog c : guarded (call_prog c).
Proof. apply guarded_call_set_light. Qed.

Lemma well_locked_setters_config calls g :
  well_locked (setters_config calls g).
Proof.
  split; [discriminate|]. intros i th H.
  destruct (setters_config_thread calls g i th H) as (c & ->).
  left. apply guarded_call_prog.
Qed.

Lemma pending_setters_config calls g i :
  pending (threads (setters_config calls g)) i <-> (i < length calls)%nat.
Proof.
  unfold pending. split.
  - intros (th & H & _). cbn [setters_config threads] in H.
    rewrite <- (length_map (fun c => mk_thread (snd c) (call_prog (fst c)))).
    apply nth_error_Some. congruence.
  - intros H.
    destruct (nth_error (threads (setters_config calls g)) i) as [th|] eqn:E.
    + exists th. split; [reflexivity|].
      destruct (setters_config_thread calls g i th E) as (c & ->).
      apply guarded_unfinished, guarded_call_prog.
    + exfalso. apply nth_error_None in E. cbn [setters_config threads] in E.
      rewrite length_map in E. lia.
Qed.

Lemma guarded_leaves_statics p : guarded p -> touches_shared p = false.
Proof. destruct p; cbn; intros H; auto; contradiction. Qed.

(** X13: mutual exclusion.  Whatever setters any number of threads call
    and however their commands interleave, a thread whose next command is
    a system call or a load or store of a static owns [g_lock]; so no two
    threads are at such a command at once. *)
Theorem statics_touched_under_lock (kernel : kernel_t)
    (calls : list (setter_call * tls)) (g : globals) (sched : list nat)
    (c : config) (i : nat) (th : thread) :
  run_schedule kernel sched (setters_config calls g) = Some c ->
  nth_error (threads c) i = Some th ->
  touches_shared (th_prog th) = true ->
  g_lock c = Some i
  /\ forall j thj,
       nth_error (threads c) j = Some thj ->
       touches_shared (th_prog thj) = true -> j = i.
Proof.
  intros R Hth T.
  pose proof (run_schedule_well_locked kernel sched _ c
                (well_locked_setters_config calls g) R) as [_ WL].
  assert (O : forall j thj,
             nth_error (threads c) j = Some thj ->
             touches_shared (th_prog thj) = true -> g_lock c = Some j).
  { intros j thj Hj Tj. specialize (WL j thj Hj).
    destruct (g_lock c) as [k|].
    - destruct (Nat.eqb_spec k j) as [E|_]; [congruence|].
      destruct WL as [G|F].
      + rewrite (guarded_leaves_statics _ G) in Tj. discriminate.
      + destruct thj as [tj pj]. destruct pj; discriminate.
    - destruct WL as [G|F].
      + rewrite (guarded_leaves_statics _ G) in Tj. discriminate.
      + destruct thj as [tj pj]. destruct pj; discriminate. }
  split; [exact (O i th Hth T)|].
  intros j thj Hj Tj. pose proof (O i th Hth T). pose proof (O j thj Hj Tj).
  congruence.
Qed.

Lemma statics_touched_under_lock_witness :
  run_schedule kernel_ok [0%nat] (setters_config three_calls globals0)
  = Some backlight_holds_lock
  /\ touches_shared
       (err <- write_int LCD_FILE (rgb_to_brightness lit_timed) ;;
        pthread_mutex_unlock ;;
        Ret err) = true
  /\ g_lock backlight_holds_lock = Some 0%nat.
Proof.
  assert (R : run_schedule kernel_ok [0%nat]
                (setters_config three_calls globals0)
              = Some backlight_holds_lock) by reflexivity.
  split; [exact R|]. split; [reflexivity|].
  exact (proj1 (statics_touched_under_lock kernel_ok three_calls globals0
                  [0%nat] backlight_holds_lock 0%nat _ R eq_refl eq_refl)).
Defined.

(** X14: any number of threads, each in a call of any of the three
    setters.  When all have returned, the statics, the history of system
    calls, each thread's [errno], log and return value are those of the
    calls run one after the other, each alone from its lock to its
    unlock, in some order of the threads; and the lock is free. *)
Theorem setters_serializable (kernel : kernel_t)
    (calls : list (setter_call * tls)) (g : globals) (sched : list nat)
    (c : config) :
  run_schedule kernel sched (setters_config calls g) = Some c ->
  all_returned c = true ->
  exists order,
    NoDup order
    /\ (forall i, In i order <-> (i < length calls)%nat)
    /\ serial kernel order (threads (setters_config calls g)) g
       = (threads c, shared c)
    /\ g_lock c = None.
Proof.
  intros R A.
  pose proof (well_locked_setters_config calls g) as WL0.
  pose proof (run_schedule_well_locked kernel sched _ c WL0 R) as WL.
  destruct (serialization kernel sched _ c [] WL0 R
              (serial_order_all_returned c WL A))
    as (order & (ND & Hin & _) & S).
  exists order. split; [exact ND|]. split; [|split].
  - intros i. rewrite Hin. apply pending_setters_config.
  - exact S.
  - apply (all_returned_unlocked c WL A).
Qed.

Lemma setters_serializable_witness :
  run_schedule kernel_ok schedule_three (setters_config three_calls globals0)
  = Some three_calls_final
  /\ all_returned three_calls_final = true
  /\ exists order,
       NoDup order
       /\ serial kernel_ok order
            (threads (setters_config three_calls globals0)) globals0
          = (threads three_calls_final, shared three_calls_final).
Proof.
  assert (R : run_schedule kernel_ok schedule_three
                (setters_config three_calls globals0)
              = Some three_calls_final) by (vm_compute; reflexivity).
  assert (A : all_returned three_calls_final = true)
    by (vm_compute; reflexivity).
  split; [exact R|]. split; [exact A|].
  destruct (setters_serializable kernel_ok three_calls globals0
              schedule_three three_calls_final R A)
    as (order & ND & _ & S & _).
  exists order. split; [exact ND|exact S].
Defined.

(** *** No deadlock *)

Lemma run_schedule_app kernel s1 :
  forall s2 c c1,
    run_schedule kernel s1 c = Some c1 ->
    run_schedule kernel (s1 ++ s2) c = run_schedule kernel s2 c1.
Proof.
  induction s1 as [|i s1 IH]; intros s2 c c1 R; cbn in *.
  - injection R as ->. reflexivity.
  - destruct (step_thread kernel i c) as [c'|]; [|discriminate].
    apply IH, R.
Qed.

(** The owner of the lock, scheduled alone, reaches its return and frees
    the lock, whatever the other threads are. *)
Lemma run_inside_to_end kernel p :
  forall t g ths i,
    nth_error ths i = Some (mk_thread t p) ->
    inside p ->
    exists sched,
      run_schedule kernel sched (mk_config (Some i) ths g)
      = Some (mk_config None (fst (run_to_end kernel i ths g))
                (snd (run_to_end kernel i ths g))).
Proof.
  induction p as [a|k IH|k IH|k IH|c k IH|k IH|l k IH|C f k IH];
    intros t g ths i Hth H; cbn in H; try contradiction.
  - destruct k; try contradiction. exists [i].
    cbn [run_schedule]. unfold step_thread, run_to_end.
    cbn [threads g_lock shared]. rewrite Hth. cbn.
    rewrite Nat.eqb_refl. reflexivity.
  - destruct (IH (fst (kernel (syscalls g) c))
                (assign_errno (snd (kernel (syscalls g) c)) t)
                (record_event (c, fst (kernel (syscalls g) c)) g)
                (set_thread ths i
                   (mk_thread (assign_errno (snd (kernel (syscalls g) c)) t)
                      (k (fst (kernel (syscalls g) c)))))
                i (nth_error_set_thread_eq _ _ _ _ Hth) (H _))
      as (sched & R).
    exists (i :: sched). cbn [run_schedule]. unfold step_thread at 1.
    cbn [threads g_lock shared]. rewrite Hth. cbn [th_prog th_tls].
    rewrite R. rewrite (run_to_end_same kernel i ths _ _ g _ Hth);
      reflexivity.
  - destruct (IH (errno t) t g
                (set_thread ths i (mk_thread t (k (errno t))))
                i (nth_error_set_thread_eq _ _ _ _ Hth) (H _))
      as (sched & R).
    exists (i :: sched). cbn [run_schedule]. unfold step_thread at 1.
    cbn [threads g_lock shared]. rewrite Hth. cbn [th_prog th_tls].
    rewrite R. rewrite (run_to_end_same kernel i ths _ _ g _ Hth);
      reflexivity.
  - destruct (IH (add_log l t) g
                (set_thread ths i (mk_thread (add_log l t) k))
                i (nth_error_set_thread_eq _ _ _ _ Hth) H)
      as (sched & R).
    exists (i :: sched). cbn [run_schedule]. unfold step_thread at 1.
    cbn [threads g_lock shared]. rewrite Hth. cbn [th_prog th_tls].
    rewrite R. rewrite (run_to_end_same kernel i ths _ _ g _ Hth);
      reflexivity.
  - destruct H as [_ H].
    destruct (IH (fst (f g)) t (snd (f g))
                (set_thread ths i (mk_thread t (k (fst (f g)))))
                i (nth_error_set_thread_eq _ _ _ _ Hth) (H _))
      as (sched & R).
    exists (i :: sched). cbn [run_schedule]. unfold step_thread at 1.
    cbn [threads g_lock shared]. rewrite Hth. cbn [th_prog th_tls].
    rewrite R. rewrite (run_to_end_same kernel i ths _ _ g _ Hth);
      reflexivity.
Qed.

(** A thread that has not taken the lock, scheduled alone while the lock
    is free, takes it, reaches its return and frees it. *)
Lemma run_guarded_to_end kernel p :
  forall t g ths i,
    nth_error ths i = Some (mk_thread t p) ->
    guarded p ->
    exists sched,
      run_schedule kernel sched (mk_config None ths g)
      = Some (mk_config None (fst (run_to_end kernel i ths g))
                (snd (run_to_end kernel i ths g))).
Proof.
  induction p as [a|k IH|k IH|k IH|c k IH|k IH|l k IH|C f k IH];
    intros t g ths i Hth H; cbn in H; try contradiction.
  - destruct (run_inside_to_end kernel k t g
                (set_thread ths i (mk_thread t k)) i
                (nth_error_set_thread_eq _ _ _ _ Hth) H) as (sched & R).
    exists (i :: sched). cbn [run_schedule]. unfold step_thread at 1.
    cbn [threads g_lock shared]. rewrite Hth. cbn [th_prog th_tls].
    rewrite R. rewrite (run_to_end_same kernel i ths _ _ g _ Hth);
      reflexivity.
  - destruct (IH (errno t) t g
                (set_thread ths i (mk_thread t (k (errno t))))
                i (nth_error_set_thread_eq _ _ _ _ Hth) (H _))
      as (sched & R).
    exists (i :: sched). cbn [run_schedule]. unfold step_thread at 1.
    cbn [threads g_lock shared]. rewrite Hth. cbn [th_prog th_tls].
    rewrite R. rewrite (run_to_end_same kernel i ths _ _ g _ Hth);
      reflexivity.
  - destruct (IH (add_log l t) g
                (set_thread ths i (mk_thread (add_log l t) k))
                i (nth_error_set_thread_eq _ _ _ _ Hth) H)
      as (sched & R).
    exists (i :: sched). cbn [run_schedule]. unfold step_thread at 1.
    cbn [threads g_lock shared]. rewrite Hth. cbn [th_prog th_tls].
    rewrite R. rewrite (run_to_end_same kernel i ths _ _ g _ Hth);
      reflexivity.
Qed.

(** The pending threads can always be run to their ends, one after the
    other. *)
Lemma run_to_completion kernel order :
  forall c,
    well_locked c -> serial_order c order ->
    exists sched c',
      run_schedule kernel sched c = Some c'
      /\ all_returned c' = true
      /\ g_lock c' = None.
Proof.
  induction order as [|i order IH]; intros c WL (ND & Hin & Hlock).
  - exists [], c. split; [reflexivity|]. split.
    + unfold all_returned. apply forallb_forall. intros th Hth.
      destruct (finished th) eqn:F; [reflexivity|].
      destruct (In_nth_error _ _ Hth) as (j & Hj).
      exfalso. apply (proj2 (Hin j)). exists th. auto.
    + destruct (g_lock c) as [j|]; [|reflexivity].
      destruct (Hlock j eq_refl) as (rest & E). discriminate E.
  - destruct (proj1 (Hin i) (or_introl eq_refl)) as (th & Hth & F).
    destruct c as [lock ths g]. cbn [threads g_lock shared] in *.
    destruct th as [t p].
    assert (R : exists sched,
               run_schedule kernel sched (mk_config lock ths g)
               = Some (mk_config None (fst (run_to_end kernel i ths g))
                         (snd (run_to_end kernel i ths g)))).
    { pose proof (proj2 WL i _ Hth) as P. cbn [g_lock th_prog] in P.
      destruct lock as [j|].
      - destruct (Hlock j eq_refl) as (rest & [= <- <-]).
        rewrite Nat.eqb_refl in P.
        apply (run_inside_to_end kernel p t g ths i Hth P).
      - destruct P as [P|P]; [|congruence].
        apply (run_guarded_to_end kernel p t g ths i Hth P). }
    destruct R as (s1 & R1).
    pose proof (run_schedule_well_locked kernel s1 _ _ WL R1) as WL1.
    assert (O1 : serial_order
                   (mk_config None (fst (run_to_end kernel i ths g))
                      (snd (run_to_end kernel i ths g))) order).
    { inversion ND as [|? ? Hni ND']; subst.
      split; [exact ND'|]. split; [|discriminate].
      intros j. unfold run_to_end. rewrite Hth. cbn [threads fst].
      unfold pending. destruct (Nat.eq_dec i j) as [<-|N].
      - rewrite (nth_error_set_thread_eq _ _ _ _ Hth). split.
        + intros Hi. contradiction.
        + intros (th' & [= <-] & F'). discriminate F'.
      - rewrite nth_error_set_thread_neq by exact N.
        rewrite <- (Hin j). cbn [In]. split; [auto|].
        intros [E|H]; [contradiction|exact H]. }
    destruct (IH _ WL1 O1) as (s2 & c' & R2 & A & L).
    exists (s1 ++ s2)%list, c'. split; [|auto].
    rewrite (run_schedule_app kernel s1 s2 _ _ R1). exact R2.
Qed.

(** X15: no deadlock.  From every configuration that threads in setter
    calls can reach, whatever the kernel answers, there is a schedule that
    lets every thread return and leaves the lock free: a call never waits
    for a lock that is not released. *)
Theorem setters_never_deadlock (kernel : kernel_t)
    (calls : list (setter_call * tls)) (g : globals) (sched : list nat)
    (c : config) :
  run_schedule kernel sched (setters_config calls g) = Some c ->
  exists sched' c',
    run_schedule kernel sched' c = Some c'
    /\ all_returned c' = true
    /\ g_lock c' = None.
Proof.
  intros R.
  pose proof (run_schedule_well_locked kernel sched _ c
                (well_locked_setters_config calls g) R) as WL.
  apply (run_to_completion kernel (completion_order c) c WL
           (completion_order_serial c WL)).
Qed.

Lemma setters_never_deadlock_witness :
  run_schedule kernel_noent [0%nat] (setters_config three_calls globals0)
  = Some backlight_holds_lock
  /\ exists sched' c',
       run_schedule kernel_noent sched' backlight_holds_lock = Some c'
       /\ all_returned c' = true
       /\ g_lock c' = None.
Proof.
  assert (R : run_schedule kernel_noent [0%nat]
                (setters_config three_calls globals0)
              = Some backlight_holds_lock) by reflexivity.
  split; [exact R|].
  exact (setters_never_deadlock kernel_noent three_calls globals0
           [0%nat] backlight_holds_lock R).
Defined.

(** ** Brightness grows with the channels *)

(** X16: the brightness is monotone in the three colour channels: a
    colour whose red, green and blue are each at least those of another
    never gets the smaller brightness, whatever the two alpha channels. *)
Theorem rgb_to_brightness_monotone (a r g b a' r' g' b' : Z)
    (mode onMS offMS mode' onMS' offMS' : Z) :
  0 <= r <= r' -> r' <= 255 ->
  0 <= g <= g' -> g' <= 255 ->
  0 <= b <= b' -> b' <= 255 ->
  rgb_to_brightness (mk_light_state (argb a r g b) mode onMS offMS)
  <= rgb_to_brightness (mk_light_state (argb a' r' g' b') mode' onMS' offMS').
Proof.
  intros Hr Hr' Hg Hg' Hb Hb'.
  rewrite !rgb_to_brightness_luma. cbn [color]. unfold luma.
  destruct (channels_of_argb a r g b) as (-> & -> & ->); try lia.
  destruct (channels_of_argb a' r' g' b') as (-> & -> & ->); try lia.
  rewrite !Z.shiftr_div_pow2 by lia.
  apply Z.div_le_mono; [reflexivity|lia].
Qed.

Lemma rgb_to_brightness_monotone_witness :
  rgb_to_brightness (mk_light_state (argb 255 10 20 30) 0 0 0)
  <= rgb_to_brightness (mk_light_state (argb 0 10 200 30) 1 5 5).
Proof.
  apply rgb_to_brightness_monotone; lia.
Defined.
